(** * ftp-kr: the backend-agnostic file interface

    A shallow embedding of [src/vsutil/fileinterface.ts] (class
    [FileInterface]) and of the [StateBar] class of [src/vsutil/vsutil.ts].

    - A JavaScript string is the list of its UTF-16 code units.
    - A [Buffer] is a list of bytes.
    - The collaborators the class talks to (status bar, logger, timer queue,
      backend primitives) are part of an explicit [World]; every call on one
      of them is appended to the world's [trace], in program order.
    - A method that returns a promise is split the way the event loop runs it:
      the [Op] is what happens before control goes back to the caller, the
      [Reaction] it returns is what runs once the backend promise settles;
      a task given to [setTimeout] waits in the world's [timers]. *)

From Stdlib Require Import List NArith ZArith Bool Lia.
From Stdlib.Strings Require Import String Ascii Byte.
Import ListNotations.

Local Open Scope N_scope.

(* ================================================================= *)
(** ** JavaScript strings *)

Module JS.

Definition jsstring := list N.

(** An ASCII literal of the source text. *)
Definition lit (s : string) : jsstring :=
  map N_of_ascii (list_ascii_of_string s).

Fixpoint eqb (a b : jsstring) : bool :=
  match a, b with
  | [], [] => true
  | x :: a', y :: b' => (x =? y) && eqb a' b'
  | _, _ => false
  end.

(** [!s] for a string: only the empty string is falsy. *)
Definition falsy (s : jsstring) : bool :=
  match s with [] => true | _ :: _ => false end.

(** [s.indexOf(c) !== -1] for a needle of one code unit. *)
Definition has_unit (c : N) (s : jsstring) : bool := existsb (N.eqb c) s.

(** [s.startsWith(c)] for a prefix of one code unit. *)
Definition startsWith (c : N) (s : jsstring) : bool :=
  match s with x :: _ => x =? c | [] => false end.

Definition REPLACEMENT : N := 65533.   (* U+FFFD *)
Definition QUESTION : N := 63.         (* '?' *)
Definition SLASH : N := 47.            (* '/' *)

Definition is_ascii (s : jsstring) : Prop := Forall (fun c => c < 128) s.

End JS.
Import JS.

(* ================================================================= *)
(** ** Charsets (iconv-lite) *)

(** [iconv.encode(str, enc)] and [iconv.decode(buf, enc)] of one charset. *)
Record Charset := {
  encode : jsstring -> list byte;
  decode : list byte -> jsstring
}.

Module Iconv.

Definition low8 (c : N) : byte :=
  match Byte.of_N (c mod 256) with Some b => b | None => x00 end.

(** ['binary']: a code unit is cut to its low byte; a byte reads back as the
    code unit of the same value. *)
Definition binary : Charset := {|
  encode := map low8;
  decode := map Byte.to_N
|}.

(** ['hex']: [Buffer.from(s, 'hex')] reads pairs of hex digits, each code
    unit by its low byte, and stops at the first pair that is not one;
    [buf.toString('hex')] prints two lower-case digits per byte. *)
Definition hexval (c : N) : option N :=
  let c := c mod 256 in
  if (48 <=? c) && (c <=? 57) then Some (c - 48)
  else if (97 <=? c) && (c <=? 102) then Some (c - 87)
  else if (65 <=? c) && (c <=? 70) then Some (c - 55)
  else None.

Fixpoint hex_parse (s : jsstring) : list byte :=
  match s with
  | h :: l :: rest =>
      match hexval h, hexval l with
      | Some a, Some b => low8 (16 * a + b) :: hex_parse rest
      | _, _ => []
      end
  | _ => []
  end.

Definition hexdigit (n : N) : N := if n <? 10 then 48 + n else 87 + n.

Definition hex_print (b : list byte) : jsstring :=
  flat_map (fun x => [hexdigit (Byte.to_N x / 16); hexdigit (Byte.to_N x mod 16)]) b.

Definition hex : Charset := {| encode := hex_parse; decode := hex_print |}.

(** ['ascii']: a single-byte table whose upper half is U+FFFD.  Encoding
    looks a code unit up in the table: U+FFFD is found at its last place,
    byte FF; a code unit that is not in the table becomes '?'. *)
Definition ascii : Charset := {|
  encode := map (fun c => if c <? 128 then low8 c
                          else if c =? REPLACEMENT then xff
                          else low8 QUESTION);
  decode := map (fun b => if Byte.to_N b <? 128 then Byte.to_N b else REPLACEMENT)
|}.

End Iconv.

(* ================================================================= *)
(** ** Values exchanged with the collaborators *)

(** A failure raised by a backend: [ftpCode] is the optional numeric
    classification ([interface Error { ftpCode?:number }]). *)
Module Error.
Record t := { ftpCode : option Z; message : jsstring }.

(** [String(err)] for an [Error] whose name is "Error". *)
Definition toString (err : t) : jsstring :=
  if falsy (message err) then lit "Error" else lit "Error: " ++ message err.

(** [err.message || err] inside a template literal. *)
Definition message_or_self (err : t) : jsstring :=
  if falsy (message err) then toString err else message err.
End Error.

Module FtpErrorCode.
Definition REQUEST_MKDIR : Z := 1.
Definition FILE_NOT_FOUND : Z := 2.
Definition REUQEST_RECONNECT_AND_RETRY : Z := 3.
Definition REUQEST_RECONNECT_AND_RETRY_ONCE : Z := 4.
Definition CONNECTION_REFUSED : Z := 5.
Definition AUTH_FAILED : Z := 6.
End FtpErrorCode.

(** The fields of [FileInfo] the class reads and writes. *)
Module FileInfo.
Record t := { name : jsstring; type : jsstring; link : option jsstring }.
Definition with_name (f : t) (n : jsstring) : t :=
  {| name := n; type := type f; link := link f |}.
Definition with_link (f : t) (v : jsstring) : t :=
  {| name := name f; type := type f; link := Some v |}.
End FileInfo.

(** The fields of [ServerConfig] the class reads.  [fileNameEncoding] is the
    charset iconv-lite resolves the configured name to. *)
Module ServerConfig.
Record t := {
  name : option jsstring;
  fileNameEncoding : Charset;
  ignoreWrongFileEncoding : bool
}.
End ServerConfig.

(** A krfile [File], by its path. *)
Definition File := jsstring.

(** What a readable stream emits, in order of emission. *)
Inductive StreamEvent :=
| data (chunk : list byte)
| close
| error (err : Error.t).

Definition Stream := list StreamEvent.

(** The state a promise ends in. *)
Inductive Promise (T : Type) :=
| Fulfilled (v : T)
| Rejected (err : Error.t)
| Pending.
Arguments Fulfilled {T} v.
Arguments Rejected {T} err.
Arguments Pending {T}.

(** Address of a [FileInfo] object in the store. *)
Definition addr := nat.

(** The abstract methods of [FileInterface]: for each primitive, the promise
    the concrete driver answers with. *)
Record Backend := {
  _mkdir : jsstring -> bool -> Promise unit;
  _rmdir : jsstring -> bool -> Promise unit;
  _delete : jsstring -> Promise unit;
  _put : File -> jsstring -> Promise unit;
  _write : list byte -> jsstring -> Promise unit;
  _get : jsstring -> Promise Stream;
  _list : jsstring -> Promise (list FileInfo.t);
  _readlink : FileInfo.t -> jsstring -> Promise jsstring;
  _rename : jsstring -> jsstring -> Promise unit
}.

Inductive Primitive :=
| P_mkdir (path : jsstring) (recursive : bool)
| P_rmdir (path : jsstring) (recursive : bool)
| P_delete (ftppath : jsstring)
| P_put (localpath : File) (ftppath : jsstring)
| P_write (buffer : list byte) (ftppath : jsstring)
| P_get (ftppath : jsstring)
| P_list (ftppath : jsstring)
| P_readlink (fileinfo : FileInfo.t) (ftppath : jsstring)
| P_rename (ftppathFrom ftppathTo : jsstring).

(* ================================================================= *)
(** ** The status bar ([class StateBar], vsutil.ts) *)

Module StateBar.

(** [statebar] is the text of the item on show, if there is one. *)
Record t := { statebar : option jsstring; disposed : bool }.

Definition init : t := {| statebar := None; disposed := false |}.

Definition close (s : t) : t :=
  match statebar s with
  | Some _ => {| statebar := None; disposed := disposed s |}
  | None => s
  end.

Definition set (state : jsstring) (s : t) : t :=
  if disposed s then s
  else {| statebar := Some state; disposed := disposed s |}.

Definition dispose (s : t) : t :=
  if disposed s then s
  else {| statebar := statebar (close s); disposed := true |}.

End StateBar.

(* ================================================================= *)
(** ** The world and its effects *)

Inductive Event :=
| StateBarSet (state : jsstring)          (* stateBar.set(state) *)
| StateBarClose                           (* stateBar.close() *)
| LoggerMessage (text : jsstring)         (* logger.message(text) *)
| Invoke (p : Primitive)                  (* an abstract method is called *)
| Pipe (localpath : File)                 (* stream.pipe(localpath.createWriteStream()) *)
| OnInvalidEncoding (errfiles : list jsstring). (* the callback runs *)

Record World := {
  stateBar : StateBar.t;
  trace : list Event;
  timers : list (list jsstring);   (* pending setTimeout tasks, by their errfiles *)
  heap : list FileInfo.t           (* the FileInfo objects, by address *)
}.

Definition M (A : Type) : Type := World -> A * World.

Definition ret {A} (a : A) : M A := fun w => (a, w).

Definition bind {A B} (m : M A) (k : A -> M B) : M B :=
  fun w => let (a, w') := m w in k a w'.

Declare Scope js_scope.
Delimit Scope js_scope with js.
Notation "x <- m ;; k" := (bind m (fun x => k))
  (at level 61, m at next level, right associativity) : js_scope.
Notation "m ;; k" := (bind m (fun _ => k))
  (at level 61, right associativity) : js_scope.
Local Open Scope js_scope.

Definition emit (e : Event) : M unit := fun w =>
  (tt, {| stateBar := stateBar w; trace := trace w ++ [e];
          timers := timers w; heap := heap w |}).

Definition stateBar_set (state : jsstring) : M unit := fun w =>
  (tt, {| stateBar := StateBar.set state (stateBar w);
          trace := trace w ++ [StateBarSet state];
          timers := timers w; heap := heap w |}).

Definition stateBar_close : M unit := fun w =>
  (tt, {| stateBar := StateBar.close (stateBar w);
          trace := trace w ++ [StateBarClose];
          timers := timers w; heap := heap w |}).

Definition logger_message (text : jsstring) : M unit :=
  emit (LoggerMessage text).

(** [setTimeout(()=>this.oninvalidencoding(errfiles), 0)]: the task is queued,
    nothing runs. *)
Definition setTimeout (errfiles : list jsstring) : M unit := fun w =>
  (tt, {| stateBar := stateBar w; trace := trace w;
          timers := timers w ++ [errfiles]; heap := heap w |}).

(** The event loop takes the queued tasks one by one, after the current turn. *)
Definition run_timers : M unit := fun w =>
  (tt, {| stateBar := stateBar w;
          trace := trace w ++ map OnInvalidEncoding (timers w);
          timers := []; heap := heap w |}).

(** Calling an abstract method: the call is recorded, the driver's promise
    comes back. *)
Definition invoke {T} (p : Primitive) (answer : Promise T) : M (Promise T) :=
  emit (Invoke p) ;; ret answer.

Definition deref (a : addr) : M (option FileInfo.t) := fun w =>
  (nth_error (heap w) a, w).

Fixpoint update {A} (l : list A) (i : nat) (x : A) : list A :=
  match l, i with
  | [], _ => []
  | _ :: l', O => x :: l'
  | y :: l', S i' => y :: update l' i' x
  end.

(** [o.field = v] on the object at [a]. *)
Definition modify (a : addr) (g : FileInfo.t -> FileInfo.t) : M unit := fun w =>
  (tt, {| stateBar := stateBar w; trace := trace w; timers := timers w;
          heap := match nth_error (heap w) a with
                  | Some f => update (heap w) a (g f)
                  | None => heap w
                  end |}).

(** The entries of a driver's answer enter the store.  A driver builds the
    objects of an answer for that answer (the data model has them as value
    objects, owned by the list result and not shared), so they are taken to
    be new and separate: they get the next free addresses.  A driver that
    lists one object twice, or hands out an object it gave out before, is
    outside this model. *)
Definition alloc (fs : list FileInfo.t) : M (list addr) := fun w =>
  (seq (List.length (heap w)) (List.length fs),
   {| stateBar := stateBar w; trace := trace w;
      timers := timers w; heap := heap w ++ fs |}).

(** A reaction is what a [then] handler does once the promise it waits for
    has settled; it ends in the state of the promise [then] returned. *)
Definition Reaction (T : Type) : Type := M (Promise T).

(** How a method call ends: it throws, or it returns a promise whose
    settlement is the reaction. *)
Inductive Completion (T : Type) :=
| Threw (err : Error.t)
| Returned (r : Reaction T).
Arguments Threw {T} err.
Arguments Returned {T} r.

Definition Op (T : Type) : Type := M (Completion T).

(** [p.then(onfulfilled, onrejected)]. *)
Definition then_ {A B} (p : Promise A)
    (onfulfilled : A -> Reaction B) (onrejected : Error.t -> Reaction B)
  : Reaction B :=
  match p with
  | Fulfilled v => onfulfilled v
  | Rejected err => onrejected err
  | Pending => ret Pending
  end.

(** Modelled from the spec: [promiseErrorWrap] of src/util/util.ts, which is
    not among the sources.  The spec has every failure "rethrown unchanged":
    the wrapper leaves the settlement of the promise as it is. *)
Definition promiseErrorWrap {T} (p : Reaction T) : Reaction T := p.

(** What the caller sees in the end. *)
Inductive Outcome (T : Type) :=
| SyncThrow (err : Error.t)
| Async (p : Promise T).
Arguments SyncThrow {T} err.
Arguments Async {T} p.

(** The call, then (in a later turn) the reaction of the promise it returned. *)
Definition run {T} (op : Op T) : M (Outcome T) :=
  c <- op ;;
  match c with
  | Threw err => ret (SyncThrow err)
  | Returned r => p <- r ;; ret (Async p)
  end.

(* ================================================================= *)
(** ** [abstract class FileInterface] *)

Module FileInterface.

(** Reading a property of [undefined]. *)
Definition TypeError : Error.t :=
  {| Error.ftpCode := None; Error.message := lit "TypeError" |}.

Section Methods.

Variable config : ServerConfig.t.
Variable backend : Backend.
(** [ftp_path.normalize] of src/util/ftp_path.ts, a black box here. *)
Variable normalize : jsstring -> jsstring.

Definition bin2str (bin : jsstring) : jsstring :=
  let buf := encode Iconv.binary bin in
  decode (ServerConfig.fileNameEncoding config) buf.

Definition str2bin (str : jsstring) : jsstring :=
  let buf := encode (ServerConfig.fileNameEncoding config) str in
  decode Iconv.binary buf.

(** [this.config.name ? this.config.name+"> "+command : command] *)
Definition prefixed (command : jsstring) : jsstring :=
  match ServerConfig.name config with
  | Some n => if falsy n then command else n ++ lit "> " ++ command
  | None => command
  end.

Definition logWithState (command : jsstring) : M unit :=
  let message := prefixed command in
  stateBar_set message ;;
  logger_message message.

Definition log (command : jsstring) : M unit :=
  let message := prefixed command in
  logger_message message.

(** [err.ftpCode === ignorecode] *)
Definition ftpCode_is (err : Error.t) (code : Z) : bool :=
  match Error.ftpCode err with
  | Some c => Z.eqb c code
  | None => false
  end.

Definition _callWithName {T} (name ftppath : jsstring) (ignorecode : Z)
    (defVal : T) (callback : jsstring -> M (Promise T)) : Op T :=
  logWithState (name ++ lit " " ++ ftppath) ;;
  p <- callback (str2bin ftppath) ;;
  ret (Returned (promiseErrorWrap (then_ p
    (fun v =>
       stateBar_close ;;
       ret (Fulfilled v))
    (fun err =>
       stateBar_close ;;
       if ftpCode_is err ignorecode then ret (Fulfilled defVal)
       else
         log (name ++ lit " fail: " ++ ftppath) ;;
         ret (Rejected err))))).

Definition upload (ftppath : jsstring) (localpath : File) : Op unit :=
  logWithState (lit "upload " ++ ftppath) ;;
  let binpath := str2bin ftppath in
  p <- invoke (P_put localpath binpath) (_put backend localpath binpath) ;;
  ret (Returned (promiseErrorWrap (then_ p
    (fun _ =>
       stateBar_close ;;
       ret (Fulfilled tt))
    (fun err =>
       stateBar_close ;;
       log (lit "upload fail: " ++ ftppath ++ lit ", " ++ Error.message_or_self err) ;;
       ret (Rejected err))))).

(** The first of the two promise callbacks to be called decides. *)
Definition settle_once {T} (settled next : Promise T) : Promise T :=
  match settled with
  | Pending => next
  | _ => settled
  end.

(** The listeners on the stream of [download] and [view], fed with what the
    stream emits: [once_close] and [once_error] tell whether the one-shot
    listener is still attached; [ondata] is the 'data' listener. *)
Fixpoint listen {T} (ondata : list (list byte) -> list byte -> list (list byte))
    (resolve : list (list byte) -> T) (stream : Stream)
    (once_close once_error : bool) (buffers : list (list byte))
    (settled : Promise T) : Reaction T :=
  match stream with
  | [] => ret settled
  | data chunk :: rest =>
      listen ondata resolve rest once_close once_error (ondata buffers chunk) settled
  | close :: rest =>
      if once_close then
        stateBar_close ;;
        listen ondata resolve rest false once_error buffers
          (settle_once settled (Fulfilled (resolve buffers)))
      else listen ondata resolve rest once_close once_error buffers settled
  | error err :: rest =>
      if once_error then
        stateBar_close ;;
        listen ondata resolve rest once_close false buffers
          (settle_once settled (Rejected err))
      else listen ondata resolve rest once_close once_error buffers settled
  end.

Definition download (localpath : File) (ftppath : jsstring) : Op unit :=
  logWithState (lit "download " ++ ftppath) ;;
  p <- invoke (P_get (str2bin ftppath)) (_get backend (str2bin ftppath)) ;;
  ret (Returned (promiseErrorWrap (then_ p
    (fun stream =>
       emit (Pipe localpath) ;;
       listen (fun buffers _ => buffers) (fun _ => tt) stream true true [] Pending)
    (fun err =>
       stateBar_close ;;
       log (lit "download fail: " ++ ftppath) ;;
       ret (Rejected err))))).

Definition view (ftppath : jsstring) : Op (list byte) :=
  logWithState (lit "view " ++ ftppath) ;;
  p <- invoke (P_get (str2bin ftppath)) (_get backend (str2bin ftppath)) ;;
  ret (Returned (promiseErrorWrap (then_ p
    (fun stream =>
       listen (fun buffers chunk => buffers ++ [chunk]) (@List.concat byte)
         stream true true [] Pending)
    (fun err =>
       stateBar_close ;;
       log (lit "view fail: " ++ ftppath) ;;
       ret (Rejected err))))).

Definition write (ftppath : jsstring) (content : list byte) : Op unit :=
  logWithState (lit "write " ++ ftppath) ;;
  p <- invoke (P_write content (str2bin ftppath))
         (_write backend content (str2bin ftppath)) ;;
  ret (Returned (promiseErrorWrap (then_ p
    (fun _ =>
       stateBar_close ;;
       ret (Fulfilled tt))
    (fun err =>
       stateBar_close ;;
       log (lit "write fail: " ++ ftppath) ;;
       ret (Rejected err))))).

(** The test on a transcoded name inside the loop of [list]. *)
Definition wrong_encoding (fn : jsstring) : bool :=
  has_unit REPLACEMENT fn || has_unit QUESTION fn.

(** The [for] loop of [list]: each entry's name is replaced, in the object
    itself, by its transcoded form; [errfiles] grows by the names that fail
    the test, unless the configuration ignores them. *)
Fixpoint list_loop (files : list addr) (errfiles : list jsstring)
  : M (Error.t + list jsstring) :=
  match files with
  | [] => ret (inr errfiles)
  | file :: rest =>
      o <- deref file ;;
      match o with
      | None => ret (inl TypeError)
      | Some f =>
          let fn := bin2str (FileInfo.name f) in
          modify file (fun f' => FileInfo.with_name f' fn) ;;
          list_loop rest
            (if negb (ServerConfig.ignoreWrongFileEncoding config) then
               if wrong_encoding fn then errfiles ++ [fn] else errfiles
             else errfiles)
      end
  end.

Definition rmdir (ftppath : jsstring) : Op unit :=
  _callWithName (lit "rmdir") ftppath FtpErrorCode.FILE_NOT_FOUND tt
    (fun binpath => invoke (P_rmdir binpath true) (_rmdir backend binpath true)).

Definition delete (ftppath : jsstring) : Op unit :=
  _callWithName (lit "delete") ftppath FtpErrorCode.FILE_NOT_FOUND tt
    (fun binpath => invoke (P_delete binpath) (_delete backend binpath)).

Definition mkdir (ftppath : jsstring) : Op unit :=
  _callWithName (lit "mkdir") ftppath 0%Z tt
    (fun binpath => invoke (P_mkdir binpath true) (_mkdir backend binpath true)).

Definition not_symlink (ftppath : jsstring) : Error.t :=
  {| Error.ftpCode := None; Error.message := ftppath ++ lit " is not symlink" |}.

(** [fileinfo.name] at the time it is read. *)
Definition name_of (fileinfo : addr) (w : World) : jsstring :=
  match nth_error (heap w) fileinfo with
  | Some f => FileInfo.name f
  | None => []
  end.

Definition readlink (fileinfo : addr) (ftppath : jsstring) : Op jsstring :=
  o <- deref fileinfo ;;
  match o with
  | None => ret (Threw TypeError)
  | Some f =>
      if negb (eqb (FileInfo.type f) (lit "l")) then
        ret (Threw (not_symlink ftppath))
      else
        logWithState (lit "readlink " ++ FileInfo.name f) ;;
        p <- invoke (P_readlink f (str2bin ftppath))
               (_readlink backend f (str2bin ftppath)) ;;
        ret (Returned (promiseErrorWrap (then_ p
          (fun v =>
             let v := if startsWith SLASH v then normalize v
                      else normalize (ftppath ++ lit "/../" ++ v) in
             modify fileinfo (fun f' => FileInfo.with_link f' v) ;;
             stateBar_close ;;
             ret (Fulfilled v))
          (fun err =>
             stateBar_close ;;
             (fun w => log (lit "readlink fail: " ++ name_of fileinfo w ++ lit ", "
                              ++ Error.message_or_self err) w) ;;
             ret (Rejected err)))))
  end.

Definition rename (ftppathFrom ftppathTo : jsstring) : Op unit :=
  logWithState (lit "rename " ++ ftppathFrom ++ lit " " ++ ftppathTo) ;;
  p <- invoke (P_rename (str2bin ftppathFrom) (str2bin ftppathTo))
         (_rename backend (str2bin ftppathFrom) (str2bin ftppathTo)) ;;
  ret (Returned (promiseErrorWrap (then_ p
    (fun _ =>
       stateBar_close ;;
       ret (Fulfilled tt))
    (fun err =>
       stateBar_close ;;
       log (lit "rename fail: " ++ ftppathFrom ++ lit " " ++ ftppathTo ++ lit ", "
              ++ Error.message_or_self err) ;;
       ret (Rejected err))))).

Definition list (ftppath : jsstring) : Op (Datatypes.list addr) :=
  let ftppath := if falsy ftppath then lit "." else ftppath in
  logWithState (lit "list " ++ ftppath) ;;
  p <- invoke (P_list (str2bin ftppath)) (_list backend (str2bin ftppath)) ;;
  ret (Returned (promiseErrorWrap (then_ p
    (fun entries =>
       files <- alloc entries ;;
       stateBar_close ;;
       r <- list_loop files [] ;;
       match r with
       | inl err => ret (Rejected err)
       | inr errfiles =>
           (if negb (Nat.eqb (List.length errfiles) 0) then setTimeout errfiles
            else ret tt) ;;
           ret (Fulfilled files)
       end)
    (fun err =>
       stateBar_close ;;
       log (lit "list fail: " ++ ftppath ++ lit ", " ++ Error.message_or_self err) ;;
       ret (Rejected err))))).

End Methods.

End FileInterface.

(* ================================================================= *)
(** ** Observations on a trace *)

Module Observe.

(** Number of [stateBar.set] calls (the reporter's announce). *)
Fixpoint announces (t : list Event) : nat :=
  match t with
  | [] => 0
  | StateBarSet _ :: t' => S (announces t')
  | _ :: t' => announces t'
  end.

(** Number of [stateBar.close] calls (the reporter's settle). *)
Fixpoint settles (t : list Event) : nat :=
  match t with
  | [] => 0
  | StateBarClose :: t' => S (settles t')
  | _ :: t' => settles t'
  end.

(** The backend primitives called, in order. *)
Fixpoint primitives (t : list Event) : list Primitive :=
  match t with
  | [] => []
  | Invoke p :: t' => p :: primitives t'
  | _ :: t' => primitives t'
  end.

(** The lines given to the logger, in order. *)
Fixpoint logged (t : list Event) : list jsstring :=
  match t with
  | [] => []
  | LoggerMessage text :: t' => text :: logged t'
  | _ :: t' => logged t'
  end.

(** The runs of the invalid-encoding callback, by their argument. *)
Fixpoint callbacks (t : list Event) : list (list jsstring) :=
  match t with
  | [] => []
  | OnInvalidEncoding errfiles :: t' => errfiles :: callbacks t'
  | _ :: t' => callbacks t'
  end.

Definition has_close (s : Stream) : bool :=
  existsb (fun e => match e with close => true | _ => false end) s.

Definition has_error (s : Stream) : bool :=
  existsb (fun e => match e with error _ => true | _ => false end) s.

Definition b2n (b : bool) : nat := if b then 1 else 0.

End Observe.
Import Observe.

(* ================================================================= *)
(** ** The ten transfer operations, as one type of invocation *)

Inductive Invocation :=
| Upload (ftppath : jsstring) (localpath : File)
| Download (localpath : File) (ftppath : jsstring)
| View (ftppath : jsstring)
| Write (ftppath : jsstring) (content : list byte)
| List (ftppath : jsstring)
| Rmdir (ftppath : jsstring)
| Delete (ftppath : jsstring)
| Mkdir (ftppath : jsstring)
| Readlink (fileinfo : addr) (ftppath : jsstring)
| Rename (ftppathFrom ftppathTo : jsstring).

(** How an invocation ended, without the value. *)
Inductive Exit := Thrown | Resolved | Failed | Hanging.

Definition exit_of {T} (o : Outcome T) : Exit :=
  match o with
  | SyncThrow _ => Thrown
  | Async (Fulfilled _) => Resolved
  | Async (Rejected _) => Failed
  | Async Pending => Hanging
  end.

Definition finish {T} (op : Op T) : M Exit :=
  o <- run op ;; ret (exit_of o).

Definition perform (config : ServerConfig.t) (backend : Backend)
    (normalize : jsstring -> jsstring) (inv : Invocation) : M Exit :=
  match inv with
  | Upload ftppath localpath => finish (FileInterface.upload config backend ftppath localpath)
  | Download localpath ftppath => finish (FileInterface.download config backend localpath ftppath)
  | View ftppath => finish (FileInterface.view config backend ftppath)
  | Write ftppath content => finish (FileInterface.write config backend ftppath content)
  | List ftppath => finish (FileInterface.list config backend ftppath)
  | Rmdir ftppath => finish (FileInterface.rmdir config backend ftppath)
  | Delete ftppath => finish (FileInterface.delete config backend ftppath)
  | Mkdir ftppath => finish (FileInterface.mkdir config backend ftppath)
  | Readlink fileinfo ftppath =>
      finish (FileInterface.readlink config backend normalize fileinfo ftppath)
  | Rename ftppathFrom ftppathTo =>
      finish (FileInterface.rename config backend ftppathFrom ftppathTo)
  end.

(** Announce and settle are each called exactly once by the invocation. *)
Definition exactly_once (config : ServerConfig.t) (backend : Backend)
    (normalize : jsstring -> jsstring) (inv : Invocation) (w : World) : Prop :=
  let w' := snd (perform config backend normalize inv w) in
  announces (trace w') = S (announces (trace w)) /\
  settles (trace w') = S (settles (trace w)).

(** The invocations that reach the announcement and whose stream, if there is
    one, fires one of its two one-shot listeners at most: [readlink] is given
    a symlink; the stream of [download] and [view] does not emit both 'close'
    and 'error'. *)
Definition single_exit (config : ServerConfig.t) (backend : Backend)
    (inv : Invocation) (w : World) : Prop :=
  match inv with
  | Readlink fileinfo _ =>
      exists f, nth_error (heap w) fileinfo = Some f /\ FileInfo.type f = lit "l"
  | Download _ ftppath | View ftppath =>
      forall stream,
        _get backend (FileInterface.str2bin config ftppath) = Fulfilled stream ->
        has_close stream && has_error stream = false
  | _ => True
  end.

(* ================================================================= *)
(** ** Named parts of the methods, for the statements below *)

(** The target [readlink] computes from the driver's answer. *)
Definition resolve_link (normalize : jsstring -> jsstring)
    (ftppath v : jsstring) : jsstring :=
  if startsWith SLASH v then normalize v
  else normalize (ftppath ++ lit "/../" ++ v).

(** The path [list] works on: [if (!ftppath) ftppath = "."]. *)
Definition list_path (ftppath : jsstring) : jsstring :=
  if falsy ftppath then lit "." else ftppath.

(** The entries of a listing once their names are transcoded. *)
Definition transcoded (config : ServerConfig.t) (entries : list FileInfo.t)
  : list FileInfo.t :=
  map (fun f => FileInfo.with_name f
                  (FileInterface.bin2str config (FileInfo.name f))) entries.

(** The transcoded names that fail the test of the loop, in listing order. *)
Definition suspects (config : ServerConfig.t) (entries : list FileInfo.t)
  : list jsstring :=
  filter FileInterface.wrong_encoding
    (map (fun f => FileInterface.bin2str config (FileInfo.name f)) entries).

(** [errfiles] at the end of the loop. *)
Definition errfiles_of (config : ServerConfig.t) (entries : list FileInfo.t)
  : list jsstring :=
  if ServerConfig.ignoreWrongFileEncoding config then []
  else suspects config entries.

(** The timer tasks one [list] call adds. *)
Definition scheduled (config : ServerConfig.t) (entries : list FileInfo.t)
  : list (list jsstring) :=
  match errfiles_of config entries with
  | [] => []
  | names => [names]
  end.

(** The world when [list] hands its promise to the caller. *)
Definition list_called (config : ServerConfig.t) (ftppath : jsstring)
    (w : World) : World :=
  let line := FileInterface.prefixed config (lit "list " ++ list_path ftppath) in
  {| stateBar := StateBar.set line (stateBar w);
     trace := trace w ++
       [StateBarSet line; LoggerMessage line;
        Invoke (P_list (FileInterface.str2bin config (list_path ftppath)))];
     timers := timers w; heap := heap w |}.

(** The world once the reaction to a fulfilled listing has run. *)
Definition list_fulfilled (config : ServerConfig.t) (entries : list FileInfo.t)
    (w1 : World) : World :=
  {| stateBar := StateBar.close (stateBar w1);
     trace := trace w1 ++ [StateBarClose];
     timers := timers w1 ++ scheduled config entries;
     heap := heap w1 ++ transcoded config entries |}.

(* ================================================================= *)
(** ** The specification's wording *)

Module Spec.

(** "A name is suspect if, after toHost, it contains the Unicode replacement
    character or a literal ? that was not present before transcoding." *)
Definition suspect (before after : jsstring) : bool :=
  has_unit REPLACEMENT after
  || (has_unit QUESTION after && negb (has_unit QUESTION before)).

End Spec.

(** The transcoded names of the entries that are suspect in the
    specification's sense, in listing order. *)
Definition spec_suspects (config : ServerConfig.t) (entries : list FileInfo.t)
  : list jsstring :=
  map (fun f => FileInterface.bin2str config (FileInfo.name f))
    (filter (fun f => Spec.suspect (FileInfo.name f)
                        (FileInterface.bin2str config (FileInfo.name f)))
       entries).

(** The invalid-encoding callback as the specification words it: one task
    with the suspect names when there is one and encoding errors are not
    tolerated, no task otherwise. *)
Definition callback_as_specified (config : ServerConfig.t) (backend : Backend)
    (ftppath : jsstring) (w : World) : Prop :=
  forall entries,
    _list backend (FileInterface.str2bin config (list_path ftppath))
      = Fulfilled entries ->
    timers (snd (run (FileInterface.list config backend ftppath) w))
    = timers w ++
      (if ServerConfig.ignoreWrongFileEncoding config then []
       else match spec_suspects config entries with
            | [] => []
            | names => [names]
            end).

(* ================================================================= *)
(** ** Sample configurations, drivers and worlds *)

Module Sample.

Definition enoent : Error.t :=
  {| Error.ftpCode := Some FtpErrorCode.FILE_NOT_FOUND;
     Error.message := lit "No such file or directory" |}.

Definition eexist : Error.t :=
  {| Error.ftpCode := Some 0%Z; Error.message := lit "File exists" |}.

Definition denied : Error.t :=
  {| Error.ftpCode := None; Error.message := lit "Permission denied" |}.

(** A server named "dev" whose names are Latin-1 bytes. *)
Definition latin1 : ServerConfig.t :=
  {| ServerConfig.name := Some (lit "dev");
     ServerConfig.fileNameEncoding := Iconv.binary;
     ServerConfig.ignoreWrongFileEncoding := false |}.

(** A server whose names are declared to be ASCII. *)
Definition usascii : ServerConfig.t :=
  {| ServerConfig.name := None;
     ServerConfig.fileNameEncoding := Iconv.ascii;
     ServerConfig.ignoreWrongFileEncoding := false |}.

Definition usascii_tolerant : ServerConfig.t :=
  {| ServerConfig.name := None;
     ServerConfig.fileNameEncoding := Iconv.ascii;
     ServerConfig.ignoreWrongFileEncoding := true |}.

(** The same server with [fileNameEncoding: 'hex']. *)
Definition hexnames : ServerConfig.t :=
  {| ServerConfig.name := None;
     ServerConfig.fileNameEncoding := Iconv.hex;
     ServerConfig.ignoreWrongFileEncoding := false |}.

Definition regular (n : string) : FileInfo.t :=
  {| FileInfo.name := lit n; FileInfo.type := lit "-"; FileInfo.link := None |}.

Definition symlink (n : string) : FileInfo.t :=
  {| FileInfo.name := lit n; FileInfo.type := lit "l"; FileInfo.link := None |}.

Definition directory (n : string) : FileInfo.t :=
  {| FileInfo.name := lit n; FileInfo.type := lit "d"; FileInfo.link := None |}.

(** A driver that answers every primitive with the same settlement. *)
Definition driver (status : Promise unit) (stream : Promise Stream)
    (entries : Promise (list FileInfo.t)) (target : Promise jsstring) : Backend :=
  {| _mkdir := fun _ _ => status;
     _rmdir := fun _ _ => status;
     _delete := fun _ => status;
     _put := fun _ _ => status;
     _write := fun _ _ => status;
     _get := fun _ => stream;
     _list := fun _ => entries;
     _readlink := fun _ _ => target;
     _rename := fun _ _ => status |}.

Definition healthy : Backend :=
  driver (Fulfilled tt)
    (Fulfilled [data [x68; x69]; close])
    (Fulfilled [regular "what?.txt"; regular "notes.txt"])
    (Fulfilled (lit "c")).

(** A driver whose listing has a name with the Latin-1 byte E9 in it. *)
Definition accented : Backend :=
  driver (Fulfilled tt) (Fulfilled [close])
    (Fulfilled [regular "notes.txt";
                {| FileInfo.name := lit "caf" ++ [233%N];
                   FileInfo.type := lit "-"; FileInfo.link := None |}])
    (Fulfilled (lit "c")).

Definition absolute : Backend :=
  driver (Fulfilled tt) (Fulfilled [close]) (Fulfilled []) (Fulfilled (lit "/x/y")).

Definition failing (err : Error.t) : Backend :=
  driver (Rejected err) (Rejected err) (Rejected err) (Rejected err).

(** A stand-in for [ftp_path.normalize]: it marks what it was given. *)
Definition normalized (p : jsstring) : jsstring := lit "normalize:" ++ p.

(** A world whose store holds a directory at address 0 and a symlink at 1. *)
Definition world : World :=
  {| stateBar := StateBar.init; trace := []; timers := [];
     heap := [directory "b"; symlink "link"] |}.

End Sample.

(* ================================================================= *)
(** ** The operations without their result value *)

Definition void_promise {T} (p : Promise T) : Promise unit :=
  match p with
  | Fulfilled _ => Fulfilled tt
  | Rejected err => Rejected err
  | Pending => Pending
  end.

(** The same call and the same reaction; the value the promise is fulfilled
    with is dropped. *)
Definition void {T} (op : Op T) : Op unit :=
  c <- op ;;
  ret (match c with
       | Threw err => Threw err
       | Returned r => Returned (p <- r ;; ret (void_promise p))
       end).

Definition call (config : ServerConfig.t) (backend : Backend)
    (normalize : jsstring -> jsstring) (inv : Invocation) : Op unit :=
  match inv with
  | Upload ftppath localpath => void (FileInterface.upload config backend ftppath localpath)
  | Download localpath ftppath => void (FileInterface.download config backend localpath ftppath)
  | View ftppath => void (FileInterface.view config backend ftppath)
  | Write ftppath content => void (FileInterface.write config backend ftppath content)
  | List ftppath => void (FileInterface.list config backend ftppath)
  | Rmdir ftppath => void (FileInterface.rmdir config backend ftppath)
  | Delete ftppath => void (FileInterface.delete config backend ftppath)
  | Mkdir ftppath => void (FileInterface.mkdir config backend ftppath)
  | Readlink fileinfo ftppath =>
      void (FileInterface.readlink config backend normalize fileinfo ftppath)
  | Rename ftppathFrom ftppathTo =>
      void (FileInterface.rename config backend ftppathFrom ftppathTo)
  end.

(** The entry [readlink] is given, when it passes the guard. *)
Definition symlink_at (w : World) (fileinfo : addr) : option FileInfo.t :=
  match nth_error (heap w) fileinfo with
  | Some f => if JS.eqb (FileInfo.type f) (lit "l") then Some f else None
  | None => None
  end.

(** The abstract method an invocation calls, with its arguments; none when
    [readlink] stops at its guard. *)
Definition primitive_of (config : ServerConfig.t) (inv : Invocation) (w : World)
  : option Primitive :=
  let bin := FileInterface.str2bin config in
  match inv with
  | Upload ftppath localpath => Some (P_put localpath (bin ftppath))
  | Download _ ftppath | View ftppath => Some (P_get (bin ftppath))
  | Write ftppath content => Some (P_write content (bin ftppath))
  | List ftppath => Some (P_list (bin (list_path ftppath)))
  | Rmdir ftppath => Some (P_rmdir (bin ftppath) true)
  | Delete ftppath => Some (P_delete (bin ftppath))
  | Mkdir ftppath => Some (P_mkdir (bin ftppath) true)
  | Readlink fileinfo ftppath =>
      match symlink_at w fileinfo with
      | Some f => Some (P_readlink f (bin ftppath))
      | None => None
      end
  | Rename ftppathFrom ftppathTo => Some (P_rename (bin ftppathFrom) (bin ftppathTo))
  end.

(** What the driver answers to that method, without the value. *)
Definition answer_of (backend : Backend) (p : Primitive) : Promise unit :=
  match p with
  | P_mkdir path recursive => _mkdir backend path recursive
  | P_rmdir path recursive => _rmdir backend path recursive
  | P_delete ftppath => _delete backend ftppath
  | P_put localpath ftppath => _put backend localpath ftppath
  | P_write buffer ftppath => _write backend buffer ftppath
  | P_get ftppath => void_promise (_get backend ftppath)
  | P_list ftppath => void_promise (_list backend ftppath)
  | P_readlink fileinfo ftppath => void_promise (_readlink backend fileinfo ftppath)
  | P_rename ftppathFrom ftppathTo => _rename backend ftppathFrom ftppathTo
  end.

(** The code a call site passes as [ignorecode], if it is a named call. *)
Definition ignorecode_of (inv : Invocation) : option Z :=
  match inv with
  | Rmdir _ | Delete _ => Some FtpErrorCode.FILE_NOT_FOUND
  | Mkdir _ => Some 0%Z
  | _ => None
  end.

Definition swallowed (inv : Invocation) (err : Error.t) : bool :=
  match ignorecode_of inv with
  | Some code => FileInterface.ftpCode_is err code
  | None => false
  end.

(** One of the one-shot listeners of [download] and [view] runs. *)
Definition fires (once_close once_error : bool) (s : Stream) : bool :=
  (once_close && has_close s) || (once_error && has_error s).

(* ================================================================= *)
(** ** The lines and worlds of an invocation *)

(** The command text an invocation announces. *)
Definition announcement (inv : Invocation) (w : World) : jsstring :=
  match inv with
  | Upload ftppath _ => lit "upload " ++ ftppath
  | Download _ ftppath => lit "download " ++ ftppath
  | View ftppath => lit "view " ++ ftppath
  | Write ftppath _ => lit "write " ++ ftppath
  | List ftppath => lit "list " ++ list_path ftppath
  | Rmdir ftppath => lit "rmdir " ++ ftppath
  | Delete ftppath => lit "delete " ++ ftppath
  | Mkdir ftppath => lit "mkdir " ++ ftppath
  | Readlink fileinfo _ => lit "readlink " ++ FileInterface.name_of fileinfo w
  | Rename ftppathFrom ftppathTo => lit "rename " ++ ftppathFrom ++ lit " " ++ ftppathTo
  end.

(** The text logged when the driver's promise is rejected and the failure is
    not swallowed. *)
Definition failure_line (inv : Invocation) (err : Error.t) (w : World) : jsstring :=
  match inv with
  | Upload ftppath _ =>
      lit "upload fail: " ++ ftppath ++ lit ", " ++ Error.message_or_self err
  | Download _ ftppath => lit "download fail: " ++ ftppath
  | View ftppath => lit "view fail: " ++ ftppath
  | Write ftppath _ => lit "write fail: " ++ ftppath
  | List ftppath =>
      lit "list fail: " ++ list_path ftppath ++ lit ", " ++ Error.message_or_self err
  | Rmdir ftppath => lit "rmdir fail: " ++ ftppath
  | Delete ftppath => lit "delete fail: " ++ ftppath
  | Mkdir ftppath => lit "mkdir fail: " ++ ftppath
  | Readlink fileinfo _ =>
      lit "readlink fail: " ++ FileInterface.name_of fileinfo w ++ lit ", "
        ++ Error.message_or_self err
  | Rename ftppathFrom ftppathTo =>
      lit "rename fail: " ++ ftppathFrom ++ lit " " ++ ftppathTo ++ lit ", "
        ++ Error.message_or_self err
  end.

(** The world when the call hands its promise to the caller. *)
Definition announced (config : ServerConfig.t) (inv : Invocation)
    (prim : Primitive) (w : World) : World :=
  let line := FileInterface.prefixed config (announcement inv w) in
  {| stateBar := StateBar.set line (stateBar w);
     trace := trace w ++ [StateBarSet line; LoggerMessage line; Invoke prim];
     timers := timers w; heap := heap w |}.

(** The world after [stateBar.close()]. *)
Definition closed (w : World) : World :=
  {| stateBar := StateBar.close (stateBar w);
     trace := trace w ++ [StateBarClose];
     timers := timers w; heap := heap w |}.

(** The world after the rejection handler has logged and thrown. *)
Definition failed (config : ServerConfig.t) (inv : Invocation) (err : Error.t)
    (w : World) : World :=
  {| stateBar := StateBar.close (stateBar w);
     trace := trace w ++
       [StateBarClose;
        LoggerMessage (FileInterface.prefixed config (failure_line inv err w))];
     timers := timers w; heap := heap w |}.

Definition is_stream (inv : Invocation) : bool :=
  match inv with
  | Download _ _ | View _ => true
  | _ => false
  end.

(* ================================================================= *)
(** ** Calls on the status bar, as data *)

Module StateBarCall.

Inductive t :=
| Set_ (state : jsstring)
| Close
| Dispose.

Definition apply (s : StateBar.t) (c : t) : StateBar.t :=
  match c with
  | Set_ state => StateBar.set state s
  | Close => StateBar.close s
  | Dispose => StateBar.dispose s
  end.

Definition run (calls : list t) (s : StateBar.t) : StateBar.t :=
  fold_left apply calls s.

Definition is_dispose (c : t) : bool :=
  match c with Dispose => true | _ => false end.

End StateBarCall.

(* ================================================================= *)
(** ** Quick picks and workspace selection (vsutil.ts) *)

Module Vsutil.

Section Host.

(** [Workspace] of src/vsutil/ws.ts and vscode's [WorkspaceFolder], with the
    parts of them the functions below use. *)
Variable Workspace : Type.
Variable WorkspaceFolder : Type.
Variable folder_name : WorkspaceFolder -> jsstring.      (* workspaceFolder.name *)
Variable workspace_name : Workspace -> jsstring.         (* workspace.name *)
Variable getInstance : WorkspaceFolder -> option Workspace.
Variable createInstance : WorkspaceFolder -> Workspace.

(** What the functions do to their surroundings: the promise they returned,
    the quick picks put on screen (labels and place holder), the folders
    [Workspace.createInstance] was called with. *)
Record Host := {
  settlement : Promise (option Workspace);
  shown : list (list jsstring * jsstring);
  created : list WorkspaceFolder
}.

Definition start : Host := {| settlement := Pending; shown := []; created := [] |}.

(** A callback whose result nobody reads. *)
Definition Action : Type := Host -> Host.

(** [resolve(v)] and [reject(err)] of the promise: the first call decides. *)
Definition settle (p : Promise (option Workspace)) : Action := fun h =>
  {| settlement := match settlement h with Pending => p | s => s end;
     shown := shown h; created := created h |}.

Definition resolve (v : option Workspace) : Action := settle (Fulfilled v).
Definition reject (err : Error.t) : Action := settle (Rejected err).

(** [() => resolve(Workspace.createInstance(workspaceFolder))] *)
Definition create_and_resolve (workspaceFolder : WorkspaceFolder) : Action :=
  fun h =>
    resolve (Some (createInstance workspaceFolder))
      {| settlement := settlement h; shown := shown h;
         created := created h ++ [workspaceFolder] |}.

Definition need_workspace : Error.t :=
  {| Error.ftpCode := None; Error.message := lit "Need workspace" |}.

(** [class QuickPickItem] *)
Record QuickPickItem := {
  label : jsstring;
  description : jsstring;
  detail : option jsstring;
  onselect : Action
}.

Definition new_item : QuickPickItem :=
  {| label := []; description := []; detail := None; onselect := fun h => h |}.

(** [class QuickPick] *)
Record QuickPick := {
  items : list QuickPickItem;
  oncancel : Action
}.

Definition new_pick : QuickPick := {| items := []; oncancel := fun h => h |}.

Definition clear (pick : QuickPick) : QuickPick :=
  {| items := []; oncancel := oncancel pick |}.

(** [pick.item(label, onselect)]: the new item, and the pick with the item
    pushed. *)
Definition item (pick : QuickPick) (lbl : jsstring) (act : Action)
  : QuickPickItem * QuickPick :=
  let it := {| label := lbl; description := description new_item;
               detail := detail new_item; onselect := act |} in
  (it, {| items := items pick ++ [it]; oncancel := oncancel pick |}).

(** [pick.open(placeHolder)]; [choice] is what [window.showQuickPick]
    resolves with: the index of the chosen item, or nothing when the user
    dismisses the pick. *)
Definition open (pick : QuickPick) (placeHolder : jsstring)
    (choice : option nat) : Action := fun h =>
  let h' := {| settlement := settlement h;
               shown := shown h ++ [(map label (items pick), placeHolder)];
               created := created h |} in
  match choice with
  | None => oncancel pick h'
  | Some i =>
      match nth_error (items pick) i with
      | Some selected => onselect selected h'
      | None => oncancel pick h'
      end
  end.

(** The name an item of [createWorkspace] gets. *)
Definition folder_label (workspaceFolder : WorkspaceFolder) : jsstring :=
  let name := folder_name workspaceFolder in
  match getInstance workspaceFolder with
  | Some _ => name ++ lit " [inited]"
  | None => name
  end.

(** [vsutil.createWorkspace()]; [workspaceFolders] is
    [workspace.workspaceFolders], undefined when no folder is open. *)
Definition createWorkspace (workspaceFolders : option (list WorkspaceFolder))
    (choice : option nat) : Action :=
  let pick := new_pick in
  match workspaceFolders with
  | None => reject need_workspace
  | Some folders =>
      match folders with
      | [only] => create_and_resolve only
      | _ =>
          let pick :=
            fold_left
              (fun pick workspaceFolder =>
                 snd (item pick (folder_label workspaceFolder)
                        (create_and_resolve workspaceFolder)))
              folders pick in
          let pick := {| items := items pick; oncancel := resolve None |} in
          open pick (lit "Select Workspace") choice
      end
  end.

(** [vsutil.selectWorkspace()]; [all] is [Workspace.all()]. *)
Definition selectWorkspace (all : list Workspace) (choice : option nat) : Action :=
  let pick :=
    fold_left
      (fun pick workspaceFolder =>
         snd (item pick (workspace_name workspaceFolder)
                (resolve (Some workspaceFolder))))
      all new_pick in
  match items pick with
  | [] => reject need_workspace
  | [only] => onselect only
  | _ =>
      let pick := {| items := items pick; oncancel := resolve None |} in
      open pick (lit "Select Workspace") choice
  end.

End Host.

End Vsutil.

Arguments Vsutil.start {Workspace WorkspaceFolder}.
Arguments Vsutil.settlement {Workspace WorkspaceFolder} h.
Arguments Vsutil.shown {Workspace WorkspaceFolder} h.
Arguments Vsutil.created {Workspace WorkspaceFolder} h.
Arguments Vsutil.Build_Host {Workspace WorkspaceFolder}.
Arguments Vsutil.resolve {Workspace WorkspaceFolder} v h.
Arguments Vsutil.reject {Workspace WorkspaceFolder} err h.
Arguments Vsutil.create_and_resolve {Workspace WorkspaceFolder} createInstance workspaceFolder h.
Arguments Vsutil.label {Workspace WorkspaceFolder} q.
Arguments Vsutil.description {Workspace WorkspaceFolder} q.
Arguments Vsutil.detail {Workspace WorkspaceFolder} q.
Arguments Vsutil.onselect {Workspace WorkspaceFolder} q h.
Arguments Vsutil.Build_QuickPickItem {Workspace WorkspaceFolder}.
Arguments Vsutil.items {Workspace WorkspaceFolder} q.
Arguments Vsutil.oncancel {Workspace WorkspaceFolder} q h.
Arguments Vsutil.Build_QuickPick {Workspace WorkspaceFolder}.
Arguments Vsutil.new_pick {Workspace WorkspaceFolder}.
Arguments Vsutil.clear {Workspace WorkspaceFolder} pick.
Arguments Vsutil.item {Workspace WorkspaceFolder} pick lbl act.
Arguments Vsutil.open {Workspace WorkspaceFolder} pick placeHolder choice h.
Arguments Vsutil.folder_label {Workspace WorkspaceFolder} folder_name getInstance workspaceFolder.
Arguments Vsutil.createWorkspace {Workspace WorkspaceFolder} folder_name getInstance createInstance workspaceFolders choice h.
Arguments Vsutil.selectWorkspace {Workspace} WorkspaceFolder workspace_name all choice h.

(** Folders and workspaces known by their names, for the examples. *)
Module Demo.

Definition Folder := jsstring.
Definition Space := jsstring.

Definition name_of_folder (f : Folder) : jsstring := f.
Definition name_of_space (s : Space) : jsstring := s.

(** Only the folder "site" has a workspace so far. *)
Definition instance_of (f : Folder) : option Space :=
  if JS.eqb f (lit "site") then Some f else None.

Definition make_instance (f : Folder) : Space := f.

Definition folders : list Folder := [lit "site"; lit "blog"].


End Demo.

(* ================================================================= *)
(** * Properties *)

Arguments lit : simpl never.
Arguments FileInterface.str2bin : simpl never.
Arguments FileInterface.bin2str : simpl never.
Arguments FileInterface.prefixed : simpl never.
Arguments StateBar.set : simpl never.
Arguments StateBar.close : simpl never.

(** ** Strings and charsets *)

Lemma jsstring_eqb_eq a b : JS.eqb a b = true <-> a = b.
Proof.
  revert b; induction a as [|x a IH]; intros [|y b]; simpl;
    try (split; discriminate); try tauto.
  rewrite andb_true_iff, N.eqb_eq, IH.
  split; [intros [-> ->]; reflexivity | intros E; inversion E; auto].
Qed.

Lemma jsstring_eqb_neq a b : JS.eqb a b = false <-> a <> b.
Proof.
  rewrite <- jsstring_eqb_eq. destruct (JS.eqb a b); split; congruence.
Qed.

Lemma has_unit_In c s : has_unit c s = true <-> In c s.
Proof.
  unfold has_unit. rewrite existsb_exists. split.
  - intros (x & Hx & E). apply N.eqb_eq in E. now subst.
  - intros H. exists c. split; [assumption | apply N.eqb_refl].
Qed.

Lemma low8_to_N b : Iconv.low8 (Byte.to_N b) = b.
Proof.
  unfold Iconv.low8.
  rewrite N.mod_small by (pose proof (Byte.to_N_bounded b); lia).
  now rewrite Byte.of_to_N.
Qed.

(** Bytes survive the trip through a 'binary' string. *)
Lemma binary_bytes_roundtrip (buf : list byte) :
  encode Iconv.binary (decode Iconv.binary buf) = buf.
Proof.
  simpl. rewrite map_map. induction buf as [|b buf IH]; simpl.
  - reflexivity.
  - now rewrite low8_to_N, IH.
Qed.

Lemma to_N_low8 c : c < 256 -> Byte.to_N (Iconv.low8 c) = c.
Proof.
  intros H. unfold Iconv.low8. rewrite N.mod_small by assumption.
  destruct (Byte.of_N c) as [b|] eqn:E.
  - now apply Byte.to_of_N.
  - apply Byte.of_N_None_iff in E. lia.
Qed.

(** 'binary' itself gives back every name made of code units below 256, the
    ASCII names among them. *)
Lemma binary_ascii_stable m :
  is_ascii m -> decode Iconv.binary (encode Iconv.binary m) = m.
Proof.
  unfold is_ascii. simpl. rewrite map_map.
  induction 1 as [|c m Hc _ IH]; simpl.
  - reflexivity.
  - rewrite IH, to_N_low8 by lia. reflexivity.
Qed.

(** ** Counting on traces *)

Local Open Scope nat_scope.

Lemma announces_app t u : announces (t ++ u) = announces t + announces u.
Proof. induction t as [|[] t IH]; simpl; auto. Qed.

Lemma settles_app t u : settles (t ++ u) = settles t + settles u.
Proof. induction t as [|[] t IH]; simpl; auto. Qed.

Lemma primitives_app t u : primitives (t ++ u) = primitives t ++ primitives u.
Proof. induction t as [|[] t IH]; simpl; auto. now rewrite IH. Qed.

Lemma logged_app t u : logged (t ++ u) = logged t ++ logged u.
Proof. induction t as [|[] t IH]; simpl; auto. now rewrite IH. Qed.

Lemma callbacks_app t u : callbacks (t ++ u) = callbacks t ++ callbacks u.
Proof. induction t as [|[] t IH]; simpl; auto. now rewrite IH. Qed.

(** ** The status bar and the store *)

(** [close] on a cleared status bar does nothing. *)
Lemma StateBar_close_idempotent s :
  StateBar.close (StateBar.close s) = StateBar.close s.
Proof. unfold StateBar.close. destruct s as [[text|] d]; reflexivity. Qed.

(** After [close] nothing is on show. *)
Lemma StateBar_close_clears s : StateBar.statebar (StateBar.close s) = None.
Proof. unfold StateBar.close. destruct s as [[text|] d]; reflexivity. Qed.

Lemma nth_error_update_same {A} (l : list A) i x y :
  nth_error l i = Some y -> nth_error (update l i x) i = Some x.
Proof.
  revert i; induction l as [|z l IH]; intros [|i]; simpl; try discriminate; auto.
Qed.

Lemma update_middle {A} (pre : list A) y post x :
  update (pre ++ y :: post) (List.length pre) x = pre ++ x :: post.
Proof. induction pre as [|z pre IH]; simpl; [reflexivity | now rewrite IH]. Qed.

Lemma nth_error_middle {A} (pre : list A) y post :
  nth_error (pre ++ y :: post) (List.length pre) = Some y.
Proof. induction pre as [|z pre IH]; simpl; auto. Qed.

(* ================================================================= *)
(** ** The charset round trip *)

(** The two 'binary' legs cancel: what [bin2str] undoes of [str2bin] is
    exactly the configured charset's own encode/decode pair. *)
Lemma bin2str_str2bin config n :
  FileInterface.bin2str config (FileInterface.str2bin config n)
  = decode (ServerConfig.fileNameEncoding config)
      (encode (ServerConfig.fileNameEncoding config) n).
Proof.
  unfold FileInterface.bin2str, FileInterface.str2bin.
  now rewrite binary_bytes_roundtrip.
Qed.

(** C8, as stated, fails: with [fileNameEncoding: 'hex'] the ASCII name "AB"
    comes back as "ab". *)
Lemma ascii_roundtrip_fails_for_hex :
  is_ascii (lit "AB") /\
  FileInterface.bin2str Sample.hexnames
    (FileInterface.str2bin Sample.hexnames (lit "AB")) = lit "ab" /\
  FileInterface.bin2str Sample.hexnames
    (FileInterface.str2bin Sample.hexnames (lit "AB")) <> lit "AB".
Proof.
  split; [| split].
  - repeat constructor.
  - vm_compute. reflexivity.
  - vm_compute. discriminate.
Qed.

(** C8 (amended): for every ASCII name [n], and every configured charset
    whose own encode/decode pair gives ASCII names back unchanged,
    [bin2str (str2bin n) = n]. *)
Theorem ascii_roundtrip config n :
  is_ascii n ->
  (forall m, is_ascii m ->
     decode (ServerConfig.fileNameEncoding config)
       (encode (ServerConfig.fileNameEncoding config) m) = m) ->
  FileInterface.bin2str config (FileInterface.str2bin config n) = n.
Proof.
  intros Hn Hcs. rewrite bin2str_str2bin. now apply Hcs.
Qed.

Lemma ascii_roundtrip_witness :
  FileInterface.bin2str Sample.latin1
    (FileInterface.str2bin Sample.latin1 (lit "readme.txt")) = lit "readme.txt".
Proof.
  apply (ascii_roundtrip Sample.latin1 (lit "readme.txt")).
  - unfold is_ascii. repeat constructor.
  - intros m Hm. apply binary_ascii_stable. exact Hm.
Defined.

(* ================================================================= *)
(** ** The guard of [readlink] *)

(** On an entry that is not a symlink the method body is left at its first
    statement: the call throws, and the world is the one it was given. *)
Lemma readlink_guard config backend normalize fileinfo ftppath w f :
  nth_error (heap w) fileinfo = Some f ->
  FileInfo.type f <> lit "l" ->
  FileInterface.readlink config backend normalize fileinfo ftppath w
  = (Threw (FileInterface.not_symlink ftppath), w).
Proof.
  intros Hf Ht. unfold FileInterface.readlink, bind, deref, ret.
  rewrite Hf. apply jsstring_eqb_neq in Ht. now rewrite Ht.
Qed.

(** C3: [readlink] on an entry whose type is not 'l' fails at once, and no
    backend primitive is invoked: the primitives on the trace are the ones
    that were there before the call. *)
Theorem readlink_non_symlink_skips_backend
    config backend normalize fileinfo ftppath w f :
  nth_error (heap w) fileinfo = Some f ->
  FileInfo.type f <> lit "l" ->
  let (o, w') :=
    run (FileInterface.readlink config backend normalize fileinfo ftppath) w in
  o = SyncThrow (FileInterface.not_symlink ftppath) /\
  primitives (trace w') = primitives (trace w).
Proof.
  intros Hf Ht. unfold run, bind.
  rewrite (readlink_guard config backend normalize fileinfo ftppath w f Hf Ht).
  simpl. split; reflexivity.
Qed.

Lemma readlink_non_symlink_skips_backend_witness :
  let (o, w') :=
    run (FileInterface.readlink Sample.latin1 Sample.healthy Sample.normalized
           0 (lit "/a/b")) Sample.world in
  o = SyncThrow (FileInterface.not_symlink (lit "/a/b")) /\
  primitives (trace w') = primitives (trace Sample.world).
Proof.
  apply (readlink_non_symlink_skips_backend Sample.latin1 Sample.healthy
           Sample.normalized 0 (lit "/a/b") Sample.world (Sample.directory "b")).
  - reflexivity.
  - vm_compute. discriminate.
Defined.

(** C10: on an entry whose type is not 'l' the failure is thrown by the call
    itself (no promise is returned), and neither announce nor settle is
    called: the counts and the status bar are as before the call. *)
Theorem readlink_non_symlink_throws_unannounced
    config backend normalize fileinfo ftppath w f :
  nth_error (heap w) fileinfo = Some f ->
  FileInfo.type f <> lit "l" ->
  let (c, w') :=
    FileInterface.readlink config backend normalize fileinfo ftppath w in
  c = Threw (FileInterface.not_symlink ftppath) /\
  announces (trace w') = announces (trace w) /\
  settles (trace w') = settles (trace w) /\
  stateBar w' = stateBar w.
Proof.
  intros Hf Ht.
  rewrite (readlink_guard config backend normalize fileinfo ftppath w f Hf Ht).
  repeat split.
Qed.

Lemma readlink_non_symlink_throws_unannounced_witness :
  let (c, w') :=
    FileInterface.readlink Sample.latin1 Sample.healthy Sample.normalized
      0 (lit "/a/b") Sample.world in
  c = Threw (FileInterface.not_symlink (lit "/a/b")) /\
  announces (trace w') = announces (trace Sample.world) /\
  settles (trace w') = settles (trace Sample.world) /\
  stateBar w' = stateBar Sample.world.
Proof.
  apply (readlink_non_symlink_throws_unannounced Sample.latin1 Sample.healthy
           Sample.normalized 0 (lit "/a/b") Sample.world (Sample.directory "b")).
  - reflexivity.
  - vm_compute. discriminate.
Defined.

(* ================================================================= *)
(** ** [list] and its default path *)

(** C9: [list("")] is [list(".")]: the two calls are the same computation,
    hence the same result on every world; what the call announces, logs and
    hands to the driver is the line "list ." and the wire form of ".". *)
Theorem list_empty_is_dot config backend w :
  FileInterface.list config backend [] = FileInterface.list config backend (lit ".") /\
  trace (snd (FileInterface.list config backend [] w))
  = trace w ++
      [StateBarSet (FileInterface.prefixed config (lit "list ."));
       LoggerMessage (FileInterface.prefixed config (lit "list ."));
       Invoke (P_list (FileInterface.str2bin config (lit ".")))].
Proof.
  split.
  - reflexivity.
  - unfold FileInterface.list, FileInterface.logWithState, invoke,
      logger_message, stateBar_set, emit, bind, ret.
    cbn [falsy snd trace]. rewrite <- !app_assoc. reflexivity.
Qed.

(* ================================================================= *)
(** ** [_callWithName]: the swallowed code *)

Lemma ftpCode_is_true err code :
  FileInterface.ftpCode_is err code = true <-> Error.ftpCode err = Some code.
Proof.
  unfold FileInterface.ftpCode_is. destruct (Error.ftpCode err) as [c|].
  - rewrite Z.eqb_eq. split; congruence.
  - split; discriminate.
Qed.

Lemma ftpCode_is_false err code :
  FileInterface.ftpCode_is err code = false <-> Error.ftpCode err <> Some code.
Proof.
  rewrite <- ftpCode_is_true.
  destruct (FileInterface.ftpCode_is err code); split; congruence.
Qed.

(** What a named call does to the world, by the driver's answer. *)
Lemma callWithName_run {T} config name ftppath ignorecode (defVal : T) p prim w :
  run (FileInterface._callWithName config name ftppath ignorecode defVal
         (fun binpath => invoke (prim binpath) (p binpath))) w
  = let line := FileInterface.prefixed config (name ++ lit " " ++ ftppath) in
    let called :=
      [StateBarSet line; LoggerMessage line;
       Invoke (prim (FileInterface.str2bin config ftppath))] in
    let bar := StateBar.set line (stateBar w) in
    match p (FileInterface.str2bin config ftppath) with
    | Fulfilled v =>
        (Async (Fulfilled v),
         {| stateBar := StateBar.close bar;
            trace := trace w ++ called ++ [StateBarClose];
            timers := timers w; heap := heap w |})
    | Rejected err =>
        if FileInterface.ftpCode_is err ignorecode then
          (Async (Fulfilled defVal),
           {| stateBar := StateBar.close bar;
              trace := trace w ++ called ++ [StateBarClose];
              timers := timers w; heap := heap w |})
        else
          (Async (Rejected err),
           {| stateBar := StateBar.close bar;
              trace := trace w ++ called ++
                [StateBarClose;
                 LoggerMessage
                   (FileInterface.prefixed config (name ++ lit " fail: " ++ ftppath))];
              timers := timers w; heap := heap w |})
    | Pending =>
        (Async Pending,
         {| stateBar := bar; trace := trace w ++ called;
            timers := timers w; heap := heap w |})
    end.
Proof.
  unfold run, FileInterface._callWithName, FileInterface.logWithState,
    FileInterface.log, promiseErrorWrap, then_, invoke, logger_message,
    stateBar_set, stateBar_close, emit, bind, ret.
  cbn.
  destruct (p (FileInterface.str2bin config ftppath)) as [v|err|]; cbn.
  - now rewrite <- !app_assoc.
  - destruct (FileInterface.ftpCode_is err ignorecode); cbn;
      now rewrite <- !app_assoc.
  - now rewrite <- !app_assoc.
Qed.

(** C5: when the driver fails with [ftpCode == FILE_NOT_FOUND], [rmdir] and
    [delete] resolve, with no value, and the only line logged is the
    announcement; a failure with any other classification leaves a
    "... fail: path" line and is thrown again unchanged. *)
Theorem rmdir_delete_swallow_not_found config backend ftppath err w :
  _rmdir backend (FileInterface.str2bin config ftppath) true = Rejected err ->
  _delete backend (FileInterface.str2bin config ftppath) = Rejected err ->
  let (o1, w1) := run (FileInterface.rmdir config backend ftppath) w in
  let (o2, w2) := run (FileInterface.delete config backend ftppath) w in
  (Error.ftpCode err = Some FtpErrorCode.FILE_NOT_FOUND ->
     o1 = Async (Fulfilled tt) /\ o2 = Async (Fulfilled tt) /\
     logged (trace w1) = logged (trace w)
       ++ [FileInterface.prefixed config (lit "rmdir " ++ ftppath)] /\
     logged (trace w2) = logged (trace w)
       ++ [FileInterface.prefixed config (lit "delete " ++ ftppath)]) /\
  (Error.ftpCode err <> Some FtpErrorCode.FILE_NOT_FOUND ->
     o1 = Async (Rejected err) /\ o2 = Async (Rejected err) /\
     logged (trace w1) = logged (trace w)
       ++ [FileInterface.prefixed config (lit "rmdir " ++ ftppath);
           FileInterface.prefixed config (lit "rmdir fail: " ++ ftppath)] /\
     logged (trace w2) = logged (trace w)
       ++ [FileInterface.prefixed config (lit "delete " ++ ftppath);
           FileInterface.prefixed config (lit "delete fail: " ++ ftppath)]).
Proof.
  intros Hr Hd. unfold FileInterface.rmdir, FileInterface.delete.
  rewrite (callWithName_run config (lit "rmdir") ftppath _ tt
             (fun b => _rmdir backend b true) (fun b => P_rmdir b true) w).
  rewrite (callWithName_run config (lit "delete") ftppath _ tt
             (_delete backend) P_delete w).
  cbv zeta. rewrite Hr, Hd.
  destruct (FileInterface.ftpCode_is err FtpErrorCode.FILE_NOT_FOUND) eqn:E.
  - apply ftpCode_is_true in E. split; [intros _ | congruence].
    cbn [trace]. rewrite !logged_app. simpl. auto.
  - apply ftpCode_is_false in E. split; [congruence | intros _].
    cbn [trace]. rewrite !logged_app. simpl. auto.
Qed.

Lemma rmdir_delete_swallow_not_found_witness :
  (Error.ftpCode Sample.enoent = Some FtpErrorCode.FILE_NOT_FOUND /\
   fst (run (FileInterface.rmdir Sample.latin1 (Sample.failing Sample.enoent)
               (lit "/old")) Sample.world) = Async (Fulfilled tt) /\
   fst (run (FileInterface.delete Sample.latin1 (Sample.failing Sample.enoent)
               (lit "/old")) Sample.world) = Async (Fulfilled tt)) /\
  (Error.ftpCode Sample.denied <> Some FtpErrorCode.FILE_NOT_FOUND /\
   fst (run (FileInterface.rmdir Sample.latin1 (Sample.failing Sample.denied)
               (lit "/old")) Sample.world) = Async (Rejected Sample.denied) /\
   fst (run (FileInterface.delete Sample.latin1 (Sample.failing Sample.denied)
               (lit "/old")) Sample.world) = Async (Rejected Sample.denied)).
Proof.
  split.
  - pose proof (rmdir_delete_swallow_not_found Sample.latin1
                  (Sample.failing Sample.enoent) (lit "/old") Sample.enoent
                  Sample.world eq_refl eq_refl) as H.
    destruct (run (FileInterface.rmdir _ _ _) _) as [o1 w1].
    destruct (run (FileInterface.delete _ _ _) _) as [o2 w2].
    destruct H as [H _]. specialize (H eq_refl).
    simpl. split; [reflexivity | split; apply H].
  - pose proof (rmdir_delete_swallow_not_found Sample.latin1
                  (Sample.failing Sample.denied) (lit "/old") Sample.denied
                  Sample.world eq_refl eq_refl) as H.
    destruct (run (FileInterface.rmdir _ _ _) _) as [o1 w1].
    destruct (run (FileInterface.delete _ _ _) _) as [o2 w2].
    destruct H as [_ H].
    assert (N : Error.ftpCode Sample.denied <> Some FtpErrorCode.FILE_NOT_FOUND)
      by (simpl; discriminate).
    specialize (H N). simpl. split; [exact N | split; apply H].
Defined.

(** C6: [mkdir] resolves exactly when the driver succeeds or fails with
    [ftpCode === 0]; a failure with any other classification, a missing
    [ftpCode] included, leaves a "mkdir fail: path" line and is thrown again
    unchanged. *)
Theorem mkdir_swallows_code_zero_only config backend ftppath w :
  let answer := _mkdir backend (FileInterface.str2bin config ftppath) true in
  let (o, w') := run (FileInterface.mkdir config backend ftppath) w in
  (o = Async (Fulfilled tt) <->
     answer = Fulfilled tt \/
     exists err, answer = Rejected err /\ Error.ftpCode err = Some 0%Z) /\
  (forall err, answer = Rejected err -> Error.ftpCode err <> Some 0%Z ->
     o = Async (Rejected err) /\
     logged (trace w') = logged (trace w)
       ++ [FileInterface.prefixed config (lit "mkdir " ++ ftppath);
           FileInterface.prefixed config (lit "mkdir fail: " ++ ftppath)]).
Proof.
  intros answer. unfold FileInterface.mkdir.
  rewrite (callWithName_run config (lit "mkdir") ftppath _ tt
             (fun b => _mkdir backend b true) (fun b => P_mkdir b true) w).
  cbv zeta. fold answer. destruct answer as [[]|err|].
  - split; [split; auto | intros e H; discriminate].
  - destruct (FileInterface.ftpCode_is err 0) eqn:E.
    + apply ftpCode_is_true in E. split.
      * split; [intros _; right; exists err; auto | reflexivity].
      * intros e H. injection H as <-. congruence.
    + apply ftpCode_is_false in E. split.
      * split; [discriminate |].
        intros [H | (e & H & He)]; [discriminate |].
        injection H as <-. congruence.
      * intros e H _. injection H as <-. split; [reflexivity |].
        cbn [trace]. rewrite !logged_app. reflexivity.
  - split.
    + split; [discriminate |].
      intros [H | (e & H & _)]; discriminate.
    + intros e H; discriminate.
Qed.

Lemma mkdir_swallows_code_zero_only_witness :
  fst (run (FileInterface.mkdir Sample.latin1 (Sample.failing Sample.eexist)
              (lit "/new")) Sample.world) = Async (Fulfilled tt) /\
  fst (run (FileInterface.mkdir Sample.latin1 (Sample.failing Sample.denied)
              (lit "/new")) Sample.world) = Async (Rejected Sample.denied).
Proof.
  split.
  - pose proof (mkdir_swallows_code_zero_only Sample.latin1
                  (Sample.failing Sample.eexist) (lit "/new") Sample.world) as H.
    cbv zeta in H.
    destruct (run (FileInterface.mkdir _ _ _) _) as [o w'].
    destruct H as [H _]. apply H. right. exists Sample.eexist.
    split; reflexivity.
  - pose proof (mkdir_swallows_code_zero_only Sample.latin1
                  (Sample.failing Sample.denied) (lit "/new") Sample.world) as H.
    cbv zeta in H.
    destruct (run (FileInterface.mkdir _ _ _) _) as [o w'].
    destruct H as [_ H]. apply (H Sample.denied); [reflexivity |].
    simpl. discriminate.
Defined.

(* ================================================================= *)
(** ** [readlink] on a symlink *)

Lemma readlink_run_fulfilled config backend normalize fileinfo ftppath w f t :
  nth_error (heap w) fileinfo = Some f ->
  FileInfo.type f = lit "l" ->
  _readlink backend f (FileInterface.str2bin config ftppath) = Fulfilled t ->
  run (FileInterface.readlink config backend normalize fileinfo ftppath) w
  = let line := FileInterface.prefixed config (lit "readlink " ++ FileInfo.name f) in
    let v := resolve_link normalize ftppath t in
    (Async (Fulfilled v),
     {| stateBar := StateBar.close (StateBar.set line (stateBar w));
        trace := trace w ++
          [StateBarSet line; LoggerMessage line;
           Invoke (P_readlink f (FileInterface.str2bin config ftppath));
           StateBarClose];
        timers := timers w;
        heap := update (heap w) fileinfo (FileInfo.with_link f v) |}).
Proof.
  intros Hf Ht Ha.
  unfold run, FileInterface.readlink, bind, deref, ret. rewrite Hf.
  apply jsstring_eqb_eq in Ht. rewrite Ht. cbn [negb].
  unfold FileInterface.logWithState, promiseErrorWrap, invoke, logger_message,
    stateBar_set, stateBar_close, modify, emit, bind, ret.
  rewrite Ha. cbn. rewrite Hf. unfold resolve_link.
  now rewrite <- !app_assoc.
Qed.

(** C4: for a symlink whose driver answers with the raw target [t], the
    result is [normalize t] when [t] starts with '/', and
    [normalize (ftppath + '/../' + t)] otherwise; when the promise is
    fulfilled, reading the [link] field of the entry gives that same value,
    and the entry's [name] and [type] are as they were. *)
Theorem readlink_resolution config backend normalize fileinfo ftppath w f t :
  nth_error (heap w) fileinfo = Some f ->
  FileInfo.type f = lit "l" ->
  _readlink backend f (FileInterface.str2bin config ftppath) = Fulfilled t ->
  let (o, w') :=
    run (FileInterface.readlink config backend normalize fileinfo ftppath) w in
  (startsWith SLASH t = true -> o = Async (Fulfilled (normalize t))) /\
  (startsWith SLASH t = false ->
     o = Async (Fulfilled (normalize (ftppath ++ lit "/../" ++ t)))) /\
  (exists v entry,
     o = Async (Fulfilled v) /\
     nth_error (heap w') fileinfo = Some entry /\
     FileInfo.link entry = Some v /\
     FileInfo.name entry = FileInfo.name f /\
     FileInfo.type entry = FileInfo.type f).
Proof.
  intros Hf Ht Ha.
  rewrite (readlink_run_fulfilled config backend normalize fileinfo ftppath w f t
             Hf Ht Ha).
  cbv zeta. unfold resolve_link. repeat split.
  - intros ->. reflexivity.
  - intros ->. reflexivity.
  - eexists. eexists. split; [reflexivity |]. cbn [heap]. split.
    + exact (nth_error_update_same (heap w) fileinfo _ f Hf).
    + repeat split.
Qed.

Lemma readlink_resolution_witness :
  (let (o, w') :=
     run (FileInterface.readlink Sample.latin1 Sample.healthy Sample.normalized
            1 (lit "/a/b/link")) Sample.world in
   o = Async (Fulfilled (Sample.normalized (lit "/a/b/link/../c"))) /\
   option_map FileInfo.link (nth_error (heap w') 1)
     = Some (Some (Sample.normalized (lit "/a/b/link/../c")))) /\
  (let (o, w') :=
     run (FileInterface.readlink Sample.latin1 Sample.absolute Sample.normalized
            1 (lit "/a/b/link")) Sample.world in
   o = Async (Fulfilled (Sample.normalized (lit "/x/y"))) /\
   option_map FileInfo.link (nth_error (heap w') 1)
     = Some (Some (Sample.normalized (lit "/x/y")))).
Proof.
  split.
  - pose proof (readlink_resolution Sample.latin1 Sample.healthy Sample.normalized
                  1 (lit "/a/b/link") Sample.world (Sample.symlink "link") (lit "c")
                  eq_refl eq_refl eq_refl) as H.
    destruct (run (FileInterface.readlink _ _ _ _ _) _) as [o w'].
    destruct H as (_ & H & (v & entry & Hv & He & Hl & _)).
    specialize (H eq_refl). split; [exact H |].
    rewrite He. cbn [option_map]. rewrite Hl.
    rewrite H in Hv. injection Hv as <-. reflexivity.
  - pose proof (readlink_resolution Sample.latin1 Sample.absolute Sample.normalized
                  1 (lit "/a/b/link") Sample.world (Sample.symlink "link")
                  (lit "/x/y") eq_refl eq_refl eq_refl) as H.
    destruct (run (FileInterface.readlink _ _ _ _ _) _) as [o w'].
    destruct H as (H & _ & (v & entry & Hv & He & Hl & _)).
    specialize (H eq_refl). split; [exact H |].
    rewrite He. cbn [option_map]. rewrite Hl.
    rewrite H in Hv. injection Hv as <-. reflexivity.
Defined.

(* ================================================================= *)
(** ** [list]: transcoding and the invalid-encoding callback *)

Lemma errfiles_step config e es acc :
  (if negb (ServerConfig.ignoreWrongFileEncoding config) then
     if FileInterface.wrong_encoding
          (FileInterface.bin2str config (FileInfo.name e))
     then acc ++ [FileInterface.bin2str config (FileInfo.name e)] else acc
   else acc) ++ errfiles_of config es
  = acc ++ errfiles_of config (e :: es).
Proof.
  unfold errfiles_of, suspects.
  destruct (ServerConfig.ignoreWrongFileEncoding config); simpl.
  - reflexivity.
  - destruct (FileInterface.wrong_encoding _); simpl.
    + now rewrite <- app_assoc.
    + reflexivity.
Qed.

(** The loop over a freshly allocated listing: every object is found, every
    name is transcoded in place, and [errfiles] grows by [errfiles_of]. *)
Lemma list_loop_fresh config entries :
  forall pre acc w,
    heap w = pre ++ entries ->
    FileInterface.list_loop config
      (seq (List.length pre) (List.length entries)) acc w
    = (inr (acc ++ errfiles_of config entries),
       {| stateBar := stateBar w; trace := trace w; timers := timers w;
          heap := pre ++ transcoded config entries |}).
Proof.
  induction entries as [|e es IH]; intros pre acc w Hw.
  - simpl. unfold ret. destruct w as [b t q h]; simpl in *. subst h.
    unfold errfiles_of, suspects. simpl.
    destruct (ServerConfig.ignoreWrongFileEncoding config);
      now rewrite !app_nil_r.
  - cbn [List.length seq FileInterface.list_loop].
    unfold bind at 1. unfold deref. rewrite Hw, nth_error_middle.
    unfold bind at 1. unfold modify at 1. cbv beta iota.
    rewrite Hw, nth_error_middle, update_middle.
    set (e' := FileInfo.with_name e (FileInterface.bin2str config (FileInfo.name e))).
    set (w' := {| stateBar := stateBar w; trace := trace w; timers := timers w;
                  heap := pre ++ e' :: es |}).
    assert (Hw' : heap w' = (pre ++ [e']) ++ es)
      by (simpl; now rewrite <- app_assoc).
    replace (S (List.length pre)) with (List.length (pre ++ [e']))
      by (rewrite length_app; simpl; lia).
    rewrite (IH (pre ++ [e']) _ w' Hw').
    rewrite errfiles_step. simpl. now rewrite <- app_assoc.
Qed.

(** The two turns of [list] when the driver answers with [entries]: the call
    announces, calls the driver and returns; the reaction settles, transcodes
    and queues the callback. *)
Lemma list_phases config backend ftppath entries w :
  _list backend (FileInterface.str2bin config (list_path ftppath))
    = Fulfilled entries ->
  exists r,
    FileInterface.list config backend ftppath w
      = (Returned r, list_called config ftppath w) /\
    forall w1,
      r w1 = (Fulfilled (seq (List.length (heap w1)) (List.length entries)),
              list_fulfilled config entries w1).
Proof.
  intros Ha.
  unfold FileInterface.list. fold (list_path ftppath).
  unfold FileInterface.logWithState, promiseErrorWrap, invoke, logger_message,
    stateBar_set, emit. unfold bind at 1 2 3 4. unfold ret at 1 2.
  rewrite Ha. unfold then_. eexists. split.
  - unfold list_called. cbn. now rewrite <- !app_assoc.
  - intros w1. unfold bind at 1 2 3. unfold alloc, stateBar_close.
    cbv beta iota. cbn [heap].
    erewrite (list_loop_fresh config entries (heap w1) []); [| reflexivity].
    cbn [stateBar trace timers heap app]. unfold list_fulfilled, scheduled.
    destruct (errfiles_of config entries) as [|n ns]; cbn;
      now rewrite ?app_nil_r.
Qed.

Lemma list_run_fulfilled config backend ftppath entries w :
  _list backend (FileInterface.str2bin config (list_path ftppath))
    = Fulfilled entries ->
  run (FileInterface.list config backend ftppath) w
  = (Async (Fulfilled (seq (List.length (heap w)) (List.length entries))),
     list_fulfilled config entries (list_called config ftppath w)).
Proof.
  intros Ha.
  destruct (list_phases config backend ftppath entries w Ha) as (r & Hc & Hr).
  unfold run, bind. rewrite Hc, Hr. reflexivity.
Qed.

(** The names that fail the test of the loop are the transcoded names that
    hold the replacement character or a '?'. *)
Lemma suspects_are_marked_names config entries fn :
  In fn (suspects config entries) <->
  exists f, In f entries /\
    fn = FileInterface.bin2str config (FileInfo.name f) /\
    (In REPLACEMENT fn \/ In QUESTION fn).
Proof.
  unfold suspects. rewrite filter_In, in_map_iff.
  unfold FileInterface.wrong_encoding.
  rewrite orb_true_iff, !has_unit_In. split.
  - intros [(f & <- & Hf) H]. exists f. auto.
  - intros (f & Hf & -> & H). split; [exists f; auto | exact H].
Qed.

(** C7, as stated, fails: in the listing "what?.txt", "notes.txt" no entry is
    suspect in the specification's sense (the '?' was there before
    transcoding, no replacement character appears), and encoding errors are
    not tolerated; yet one callback is scheduled, and it runs with
    "what?.txt". *)
Lemma callback_scheduled_without_suspect_entry :
  _list Sample.healthy
    (FileInterface.str2bin Sample.latin1 (list_path (lit "/pub")))
    = Fulfilled [Sample.regular "what?.txt"; Sample.regular "notes.txt"] /\
  spec_suspects Sample.latin1
    [Sample.regular "what?.txt"; Sample.regular "notes.txt"] = [] /\
  timers (snd (run (FileInterface.list Sample.latin1 Sample.healthy (lit "/pub"))
                 Sample.world)) = [[lit "what?.txt"]] /\
  callbacks
    (trace (snd (run_timers
                   (snd (run (FileInterface.list Sample.latin1 Sample.healthy
                                (lit "/pub")) Sample.world)))))
    = [[lit "what?.txt"]] /\
  ~ callback_as_specified Sample.latin1 Sample.healthy (lit "/pub") Sample.world.
Proof.
  split; [reflexivity |]. split; [vm_compute; reflexivity |].
  split; [vm_compute; reflexivity |]. split; [vm_compute; reflexivity |].
  intros H. specialize (H _ eq_refl). vm_compute in H. discriminate H.
Qed.

(** C7 (amended): a name counts when, after transcoding, it holds the
    replacement character or a '?', whether or not the '?' was there before.
    When the driver answers [list] with [entries], nothing is queued and no
    callback has run when the call returns; the reaction queues exactly one
    task, carrying exactly the names that count, in listing order, when
    there is such a name and wrong encodings are not ignored, and no task
    otherwise; the callback runs only when the event loop takes the task. *)
Theorem list_schedules_one_callback config backend ftppath entries w :
  _list backend (FileInterface.str2bin config (list_path ftppath))
    = Fulfilled entries ->
  let queued :=
    if ServerConfig.ignoreWrongFileEncoding config then []
    else match suspects config entries with
         | [] => []
         | names => [names]
         end in
  (forall fn,
     In fn (suspects config entries) <->
     exists f, In f entries /\
       fn = FileInterface.bin2str config (FileInfo.name f) /\
       (In REPLACEMENT fn \/ In QUESTION fn)) /\
  let (c, w1) := FileInterface.list config backend ftppath w in
  timers w1 = timers w /\
  callbacks (trace w1) = callbacks (trace w) /\
  exists r, c = Returned r /\
    let (p, w2) := r w1 in
    timers w2 = timers w ++ queued /\
    callbacks (trace w2) = callbacks (trace w) /\
    let (_, w3) := run_timers w2 in
    callbacks (trace w3) = callbacks (trace w) ++ timers w ++ queued.
Proof.
  intros Ha queued.
  split; [intros fn; apply suspects_are_marked_names |].
  assert (Hq : scheduled config entries = queued).
  { unfold scheduled, errfiles_of, queued.
    now destruct (ServerConfig.ignoreWrongFileEncoding config). }
  destruct (list_phases config backend ftppath entries w Ha) as (r & Hc & Hr).
  rewrite Hc. unfold list_called. cbn [timers trace].
  split; [reflexivity |]. split.
  - rewrite callbacks_app, app_nil_r. reflexivity.
  - exists r. split; [reflexivity |]. rewrite Hr.
    unfold list_fulfilled, run_timers. cbn [timers trace]. rewrite Hq.
    assert (Hmap : forall q, callbacks (map OnInvalidEncoding q) = q)
      by (induction q as [|x q IH]; simpl; [|rewrite IH]; reflexivity).
    rewrite !callbacks_app, Hmap. simpl. rewrite !app_nil_r. auto.
Qed.

Lemma list_schedules_one_callback_witness :
  timers (snd (run (FileInterface.list Sample.usascii Sample.accented (lit "/pub"))
                 Sample.world)) = [[lit "caf" ++ [REPLACEMENT]]] /\
  timers (snd (run (FileInterface.list Sample.usascii_tolerant Sample.accented (lit "/pub"))
                 Sample.world)) = [].
Proof.
  split.
  - pose proof (list_schedules_one_callback Sample.usascii Sample.accented
                  (lit "/pub") _ Sample.world eq_refl) as H.
    unfold run, bind.
    destruct (FileInterface.list _ _ _ _) as [c w1].
    destruct H as (_ & _ & _ & r & -> & H).
    destruct (r w1) as [p w2]. apply H.
  - pose proof (list_schedules_one_callback Sample.usascii_tolerant Sample.accented
                  (lit "/pub") _ Sample.world eq_refl) as H.
    unfold run, bind.
    destruct (FileInterface.list _ _ _ _) as [c w1].
    destruct H as (_ & _ & _ & r & -> & H).
    destruct (r w1) as [p w2]. apply H.
Defined.

(** C2, as stated, fails: the name "what?.txt" had its '?' before
    transcoding and has no replacement character after it, so it is not
    suspect in the specification's sense; [list] collects it all the same. *)
Lemma question_mark_present_before_is_collected :
  timers (snd (run (FileInterface.list Sample.latin1 Sample.healthy (lit "/pub"))
                 Sample.world)) = [[lit "what?.txt"]] /\
  Spec.suspect (lit "what?.txt")
    (FileInterface.bin2str Sample.latin1 (lit "what?.txt")) = false.
Proof. split; vm_compute; reflexivity. Qed.

(** C2 (amended): with wrong encodings not ignored, a name is handed to the
    invalid-encoding callback if and only if it is the transcoded name of an
    entry of the listing and contains the replacement character or a '?',
    whether or not the '?' was there before transcoding. *)
Theorem wrong_encoding_collected config backend ftppath entries w fn :
  ServerConfig.ignoreWrongFileEncoding config = false ->
  _list backend (FileInterface.str2bin config (list_path ftppath))
    = Fulfilled entries ->
  let (o, w') := run (FileInterface.list config backend ftppath) w in
  (exists errfiles, timers w' = timers w ++ [errfiles] /\ In fn errfiles) <->
  (exists f, In f entries /\
     fn = FileInterface.bin2str config (FileInfo.name f) /\
     (In REPLACEMENT fn \/ In QUESTION fn)).
Proof.
  intros Hi Ha. rewrite (list_run_fulfilled config backend ftppath entries w Ha).
  unfold list_fulfilled, list_called. cbn [timers].
  unfold scheduled, errfiles_of. rewrite Hi.
  assert (Hs : forall x, In x (suspects config entries) <->
            exists f, In f entries /\
              x = FileInterface.bin2str config (FileInfo.name f) /\
              (In REPLACEMENT x \/ In QUESTION x)).
  { intros x. unfold suspects. rewrite filter_In, in_map_iff.
    unfold FileInterface.wrong_encoding.
    rewrite orb_true_iff, !has_unit_In.
    split.
    - intros [(f & <- & Hf) H]. exists f. auto.
    - intros (f & Hf & -> & H). split; [exists f; auto | exact H]. }
  rewrite <- Hs. split.
  - intros (errfiles & Ht & Hin). apply app_inv_head in Ht.
    destruct (suspects config entries) as [|n ns]; [discriminate |].
    injection Ht as <-. exact Hin.
  - intros Hin. exists (suspects config entries). split; [| exact Hin].
    destruct (suspects config entries) as [|n ns]; [destruct Hin | reflexivity].
Qed.

Lemma wrong_encoding_collected_witness :
  exists errfiles,
    timers (snd (run (FileInterface.list Sample.usascii Sample.accented (lit "/pub"))
                   Sample.world)) = timers Sample.world ++ [errfiles] /\
    In (lit "caf" ++ [REPLACEMENT]) errfiles.
Proof.
  pose proof (wrong_encoding_collected Sample.usascii Sample.accented (lit "/pub")
                _ Sample.world (lit "caf" ++ [REPLACEMENT]) eq_refl eq_refl) as H.
  destruct (run (FileInterface.list _ _ _) _) as [o w'].
  apply H.
  exists {| FileInfo.name := lit "caf" ++ [233%N];
            FileInfo.type := lit "-"; FileInfo.link := None |}.
  split; [right; left; reflexivity |].
  split; [vm_compute; reflexivity | left; vm_compute; auto 10].
Defined.

(* ================================================================= *)
(** ** Announce and settle around every operation *)

(** The listeners of [download] and [view] never announce; each one-shot
    listener that is attached and whose event comes settles once; and the
    promise leaves the pending state only when one of them has run. *)
Lemma listen_counts {T} ondata (resolve : list (list byte) -> T) stream :
  forall once_close once_error buffers settled w,
    let (p, w') := FileInterface.listen ondata resolve stream
                     once_close once_error buffers settled w in
    announces (trace w') = announces (trace w) /\
    settles (trace w') = settles (trace w)
      + b2n (once_close && has_close stream)
      + b2n (once_error && has_error stream) /\
    (settled = Pending -> p <> Pending ->
     (once_close && has_close stream) || (once_error && has_error stream) = true).
Proof.
  induction stream as [|ev rest IH]; intros c e buffers settled w.
  - simpl. unfold ret. rewrite !andb_false_r. simpl.
    repeat split; try lia. congruence.
  - destruct ev as [chunk| |err]; cbn [FileInterface.listen].
    + apply IH.
    + destruct c.
      * unfold bind, stateBar_close.
        specialize (IH false e buffers
                      (FileInterface.settle_once settled
                         (Fulfilled (resolve buffers)))
                      {| stateBar := StateBar.close (stateBar w);
                         trace := trace w ++ [StateBarClose];
                         timers := timers w; heap := heap w |}).
        destruct (FileInterface.listen _ _ _ _ _ _ _ _) as [p w'].
        cbn [trace] in IH. destruct IH as (Ha & Hs & _).
        rewrite Ha, Hs, announces_app, settles_app. simpl.
        repeat split; lia.
      * specialize (IH false e buffers settled w).
        destruct (FileInterface.listen _ _ _ _ _ _ _ _) as [p w'].
        exact IH.
    + destruct e.
      * unfold bind, stateBar_close.
        specialize (IH c false buffers
                      (FileInterface.settle_once settled (Rejected err))
                      {| stateBar := StateBar.close (stateBar w);
                         trace := trace w ++ [StateBarClose];
                         timers := timers w; heap := heap w |}).
        destruct (FileInterface.listen _ _ _ _ _ _ _ _) as [p w'].
        cbn [trace] in IH. destruct IH as (Ha & Hs & _).
        rewrite Ha, Hs, announces_app, settles_app. simpl.
        rewrite orb_true_r. simpl. repeat split; lia.
      * specialize (IH c false buffers settled w).
        destruct (FileInterface.listen _ _ _ _ _ _ _ _) as [p w'].
        exact IH.
Qed.

Ltac open_method :=
  unfold perform, finish, run,
    FileInterface.upload, FileInterface.download, FileInterface.view,
    FileInterface.write, FileInterface.rename, FileInterface.list,
    FileInterface.logWithState, FileInterface.log,
    promiseErrorWrap, then_, invoke, logger_message,
    stateBar_set, stateBar_close, emit, bind, ret.

Ltac tally :=
  cbn [trace fst snd exit_of]; rewrite ?announces_app, ?settles_app; simpl;
  split; [lia | intros [E|E]; try discriminate E; lia].

Ltac by_listeners Hexit :=
  cbn [stateBar trace timers heap];
  match goal with
  | |- context [FileInterface.listen ?a ?b ?s ?c ?e ?bu ?st ?w0] =>
      let H := fresh "H" in
      pose proof (listen_counts a b s c e bu st w0) as H;
      destruct (FileInterface.listen a b s c e bu st w0) as [p w'];
      destruct H as (Ha & Hs & Hp);
      cbn [trace andb] in Ha, Hs, Hp;
      rewrite !announces_app in Ha; rewrite !settles_app in Hs;
      simpl in Ha, Hs;
      split; [lia |];
      intros Hex;
      assert (Hne : p <> Pending)
        by (destruct p; simpl in Hex; destruct Hex; congruence);
      specialize (Hp eq_refl Hne);
      destruct (has_close s), (has_error s); simpl in *; try discriminate; lia
  end.

(** C1, as stated, fails: [readlink] on a directory entry is a transfer
    operation that neither announces nor settles. *)
Lemma readlink_on_directory_never_announces :
  ~ exactly_once Sample.latin1 Sample.healthy Sample.normalized
      (Readlink 0 (lit "/a/b")) Sample.world.
Proof.
  unfold exactly_once. vm_compute. intros [H _]. discriminate H.
Qed.

(** C1 (amended): every invocation of upload, download, view, write, list,
    rmdir, delete, mkdir, rename, and of readlink on a symlink entry,
    announces exactly once; and when its promise is fulfilled or rejected
    (success, swallowed failure, propagated failure) settle has been called
    exactly once -- for download and view, on a stream that does not emit
    both 'close' and 'error'. *)
Theorem operation_announces_and_settles_once config backend normalize inv w :
  single_exit config backend inv w ->
  let (ex, w') := perform config backend normalize inv w in
  announces (trace w') = S (announces (trace w)) /\
  (ex = Resolved \/ ex = Failed -> settles (trace w') = S (settles (trace w))).
Proof.
  destruct inv as [ftppath localpath | localpath ftppath | ftppath
                  | ftppath content | ftppath | ftppath | ftppath | ftppath
                  | fileinfo ftppath | ftppathFrom ftppathTo];
    cbn [single_exit]; intros Hexit.
  - (* upload *)
    open_method.
    destruct (_put backend localpath _) as [[]|err|]; tally.
  - (* download *)
    open_method.
    destruct (_get backend _) as [stream|err|] eqn:Hget; [| tally | tally].
    + specialize (Hexit stream eq_refl). by_listeners Hexit.
  - (* view *)
    open_method.
    destruct (_get backend _) as [stream|err|] eqn:Hget; [| tally | tally].
    + specialize (Hexit stream eq_refl). by_listeners Hexit.
  - (* write *)
    open_method.
    destruct (_write backend content _) as [[]|err|]; tally.
  - (* list *)
    destruct (_list backend (FileInterface.str2bin config (list_path ftppath)))
      as [entries|err|] eqn:Hlist.
    + unfold perform, finish, bind.
      rewrite (list_run_fulfilled config backend ftppath entries w Hlist).
      unfold list_fulfilled, list_called, ret. tally.
    + open_method. fold (list_path ftppath). rewrite Hlist. tally.
    + open_method. fold (list_path ftppath). rewrite Hlist. tally.
    - (* rmdir *)
    unfold perform, finish, bind, FileInterface.rmdir.
    rewrite (callWithName_run config (lit "rmdir") ftppath _ tt
               (fun b => _rmdir backend b true) (fun b => P_rmdir b true) w).
    cbv zeta. destruct (_rmdir backend _ true) as [[]|err|];
      [| destruct (FileInterface.ftpCode_is err _) |]; unfold ret; tally.
  - (* delete *)
    unfold perform, finish, bind, FileInterface.delete.
    rewrite (callWithName_run config (lit "delete") ftppath _ tt
               (_delete backend) P_delete w).
    cbv zeta. destruct (_delete backend _) as [[]|err|];
      [| destruct (FileInterface.ftpCode_is err _) |]; unfold ret; tally.
  - (* mkdir *)
    unfold perform, finish, bind, FileInterface.mkdir.
    rewrite (callWithName_run config (lit "mkdir") ftppath _ tt
               (fun b => _mkdir backend b true) (fun b => P_mkdir b true) w).
    cbv zeta. destruct (_mkdir backend _ true) as [[]|err|];
      [| destruct (FileInterface.ftpCode_is err _) |]; unfold ret; tally.
  - (* readlink *)
    destruct Hexit as (f & Hf & Ht).
    destruct (_readlink backend f (FileInterface.str2bin config ftppath))
      as [t|err|] eqn:Hlink.
    + unfold perform, finish, bind.
      rewrite (readlink_run_fulfilled config backend normalize fileinfo ftppath
                 w f t Hf Ht Hlink).
      cbv zeta. unfold ret. tally.
    + apply jsstring_eqb_eq in Ht.
      unfold perform, finish, run, FileInterface.readlink, bind, deref, ret.
      rewrite Hf, Ht. cbn [negb]. open_method. rewrite Hlink. tally.
    + apply jsstring_eqb_eq in Ht.
      unfold perform, finish, run, FileInterface.readlink, bind, deref, ret.
      rewrite Hf, Ht. cbn [negb]. open_method. rewrite Hlink. tally.
    - (* rename *)
    open_method.
    destruct (_rename backend _ _) as [[]|err|]; tally.
Qed.

Lemma operation_announces_and_settles_once_witness :
  let w' := snd (perform Sample.latin1 Sample.healthy Sample.normalized
                   (Download (lit "/tmp/hi.txt") (lit "/pub/hi.txt")) Sample.world) in
  announces (trace w') = 1 /\ settles (trace w') = 1.
Proof.
  assert (Hexit : single_exit Sample.latin1 Sample.healthy
                    (Download (lit "/tmp/hi.txt") (lit "/pub/hi.txt")) Sample.world).
  { simpl. intros stream H. injection H as <-. reflexivity. }
  pose proof (operation_announces_and_settles_once Sample.latin1 Sample.healthy
                Sample.normalized
                (Download (lit "/tmp/hi.txt") (lit "/pub/hi.txt"))
                Sample.world Hexit) as H.
  assert (Hex : fst (perform Sample.latin1 Sample.healthy Sample.normalized
                       (Download (lit "/tmp/hi.txt") (lit "/pub/hi.txt"))
                       Sample.world) = Resolved)
    by (vm_compute; reflexivity).
  destruct (perform _ _ _ _ _) as [ex w']. simpl in Hex. cbv zeta. simpl snd.
  destruct H as [Ha Hs]. split; [exact Ha | apply Hs; left; exact Hex].
Defined.

(* ================================================================= *)
(** * Further properties of the file interface *)

(** ** The listeners of [download] and [view] *)

Lemma settle_once_settled {T} (settled next : Promise T) :
  settled <> Pending -> FileInterface.settle_once settled next = settled.
Proof. destruct settled; simpl; congruence. Qed.

(** The listeners touch nothing but the status bar: no line is logged, no
    primitive is called, store and timers stay as they are; the bar is
    closed when a listener runs; and a promise that has left the pending
    state keeps its settlement. *)
Lemma listen_quiet {T} ondata (resolve : list (list byte) -> T) stream :
  forall once_close once_error buffers settled w,
    let (p, w') := FileInterface.listen ondata resolve stream
                     once_close once_error buffers settled w in
    logged (trace w') = logged (trace w) /\
    primitives (trace w') = primitives (trace w) /\
    callbacks (trace w') = callbacks (trace w) /\
    heap w' = heap w /\ timers w' = timers w /\
    stateBar w' = (if fires once_close once_error stream
                   then StateBar.close (stateBar w) else stateBar w) /\
    (settled <> Pending -> p = settled) /\
    (fires once_close once_error stream = true -> p <> Pending) /\
    (settled = Pending -> fires once_close once_error stream = false ->
     p = Pending).
Proof.
  unfold fires.
  induction stream as [|ev rest IH]; intros c e buffers settled w.
  - simpl. unfold ret. rewrite !andb_false_r. simpl.
    repeat split; auto; discriminate.
  - destruct ev as [chunk| |err]; cbn [FileInterface.listen].
    + apply IH.
    + destruct c.
      * unfold bind, stateBar_close.
        specialize (IH false e buffers
                      (FileInterface.settle_once settled
                         (Fulfilled (resolve buffers))) (closed w)).
        unfold closed in IH.
        destruct (FileInterface.listen _ _ _ _ _ _ _ _) as [p w'].
        cbn [trace heap timers stateBar] in IH.
        destruct IH as (Hl & Hp & Hc & Hh & Ht & Hb & Hs & _ & _).
        rewrite Hl, Hp, Hc, Hh, Ht, Hb, logged_app, primitives_app, callbacks_app.
        simpl. rewrite !app_nil_r.
        assert (Hne : FileInterface.settle_once settled
                        (Fulfilled (resolve buffers)) <> Pending)
          by (destruct settled; simpl; discriminate).
        repeat split; auto.
        -- destruct (e && has_error rest);
             [apply StateBar_close_idempotent | reflexivity].
        -- intros H. rewrite (Hs Hne). now apply settle_once_settled.
        -- intros _. rewrite (Hs Hne). exact Hne.
        -- discriminate.
      * specialize (IH false e buffers settled w).
        destruct (FileInterface.listen _ _ _ _ _ _ _ _) as [p w'].
        exact IH.
    + destruct e.
      * unfold bind, stateBar_close.
        specialize (IH c false buffers
                      (FileInterface.settle_once settled (Rejected err))
                      (closed w)).
        unfold closed in IH.
        destruct (FileInterface.listen _ _ _ _ _ _ _ _) as [p w'].
        cbn [trace heap timers stateBar] in IH.
        destruct IH as (Hl & Hp & Hc & Hh & Ht & Hb & Hs & _ & _).
        rewrite Hl, Hp, Hc, Hh, Ht, Hb, logged_app, primitives_app, callbacks_app.
        simpl. rewrite !app_nil_r, !orb_false_r, orb_true_r.
        assert (Hne : FileInterface.settle_once settled (Rejected err) <> Pending)
          by (destruct settled; simpl; discriminate).
        repeat split; auto.
        -- destruct (c && has_close rest);
             [apply StateBar_close_idempotent | reflexivity].
        -- intros H. rewrite (Hs Hne). now apply settle_once_settled.
        -- intros _. rewrite (Hs Hne). exact Hne.
        -- discriminate.
      * specialize (IH c false buffers settled w).
        destruct (FileInterface.listen _ _ _ _ _ _ _ _) as [p w'].
        simpl. rewrite !orb_false_r in *. exact IH.
Qed.

(** ** The two turns of an invocation *)

Ltac open_call :=
  unfold call, void,
    FileInterface.upload, FileInterface.download, FileInterface.view,
    FileInterface.write, FileInterface.rename, FileInterface.list,
    FileInterface.rmdir, FileInterface.delete, FileInterface.mkdir,
    FileInterface._callWithName,
    FileInterface.logWithState, FileInterface.log,
    promiseErrorWrap, invoke, logger_message,
    stateBar_set, stateBar_close, emit, bind, ret.

Ltac first_turn :=
  unfold announced; cbn [announcement stateBar trace timers heap];
  rewrite <- ?app_assoc; reflexivity.

Ltac plain_reaction :=
  unfold then_, closed, failed, swallowed;
  cbn [ignorecode_of failure_line stateBar trace timers heap];
  rewrite <- ?app_assoc; cbn [app];
  repeat split; try reflexivity; try discriminate;
  rewrite ?logged_app, ?primitives_app, ?announces_app; simpl;
  rewrite ?app_nil_r; auto.

(** [readlink] stopped by its guard, or given no object at all, throws and
    leaves the world as it was. *)
Lemma call_guard config backend normalize inv w :
  primitive_of config inv w = None ->
  exists err, call config backend normalize inv w = (Threw err, w).
Proof.
  destruct inv; cbn [primitive_of]; try discriminate.
  unfold symlink_at, call, void, FileInterface.readlink, bind, deref, ret.
  destruct (nth_error (heap w) fileinfo) as [f|]; [| intros _; eauto].
  destruct (JS.eqb (FileInfo.type f) (lit "l")); [discriminate |].
  intros _. cbn [negb]. eauto.
Qed.

(** An invocation that reaches its primitive: the call announces, logs the
    same line, calls the primitive and returns; the reaction depends on the
    driver's answer only. *)
Lemma call_phases config backend normalize inv w prim :
  primitive_of config inv w = Some prim ->
  exists r,
    call config backend normalize inv w
      = (Returned r, announced config inv prim w) /\
    forall w2,
      match answer_of backend prim with
      | Pending => r w2 = (Pending, w2)
      | Rejected err =>
          r w2 = if swallowed inv err then (Fulfilled tt, closed w2)
                 else (Rejected err, failed config inv err w2)
      | Fulfilled _ =>
          let (p, w3) := r w2 in
          logged (trace w3) = logged (trace w2) /\
          primitives (trace w3) = primitives (trace w2) /\
          announces (trace w3) = announces (trace w2) /\
          (p = Pending -> stateBar w3 = stateBar w2) /\
          (p <> Pending -> stateBar w3 = StateBar.close (stateBar w2)) /\
          (is_stream inv = false -> p = Fulfilled tt)
      end.
Proof.
  destruct inv as [ftppath localpath | localpath ftppath | ftppath
                  | ftppath content | ftppath | ftppath | ftppath | ftppath
                  | fileinfo ftppath | ftppathFrom ftppathTo];
    cbn [primitive_of]; intros Hprim.
  - (* upload *)
    injection Hprim as <-. open_call. eexists. split; [first_turn |].
    intros w2. cbn [answer_of].
    destruct (_put backend localpath _) as [[]|err|]; plain_reaction.
  - (* download *)
    injection Hprim as <-. open_call. eexists. split; [first_turn |].
    intros w2. cbn [answer_of].
    destruct (_get backend _) as [stream|err|]; [| plain_reaction | plain_reaction].
    unfold then_. cbn [void_promise].
    match goal with
    | |- context [FileInterface.listen ?a ?b ?s ?c ?e ?bu ?st ?w0] =>
        pose proof (listen_quiet a b s c e bu st w0) as Hq;
        pose proof (listen_counts a b s c e bu st w0) as Hn;
        destruct (FileInterface.listen a b s c e bu st w0) as [p w3]
    end.
    destruct Hq as (Hl & Hp & _ & _ & _ & Hb & _ & Hf & Hnf).
    destruct Hn as (Ha & _ & _).
    cbn [trace stateBar] in *.
    rewrite logged_app in Hl. rewrite primitives_app in Hp.
    rewrite announces_app in Ha. simpl in Hl, Hp, Ha.
    rewrite app_nil_r in Hl, Hp. rewrite Nat.add_0_r in Ha.
    repeat split; auto; try discriminate.
    + intros Hpend. destruct (fires true true stream) eqn:E.
      * destruct p; [discriminate | discriminate |].
        exfalso. now apply Hf.
      * exact Hb.
    + intros Hne. destruct (fires true true stream) eqn:E; [exact Hb |].
      destruct p; try (exfalso; apply Hne; reflexivity);
        specialize (Hnf eq_refl eq_refl); discriminate.
  - (* view *)
    injection Hprim as <-. open_call. eexists. split; [first_turn |].
    intros w2. cbn [answer_of].
    destruct (_get backend _) as [stream|err|]; [| plain_reaction | plain_reaction].
    unfold then_. cbn [void_promise].
    match goal with
    | |- context [FileInterface.listen ?a ?b ?s ?c ?e ?bu ?st ?w0] =>
        pose proof (listen_quiet a b s c e bu st w0) as Hq;
        pose proof (listen_counts a b s c e bu st w0) as Hn;
        destruct (FileInterface.listen a b s c e bu st w0) as [p w3]
    end.
    destruct Hq as (Hl & Hp & _ & _ & _ & Hb & _ & Hf & Hnf).
    destruct Hn as (Ha & _ & _).
    repeat split; auto; try discriminate.
    + intros Hpend. destruct (fires true true stream) eqn:E.
      * destruct p; [discriminate | discriminate |].
        exfalso. now apply Hf.
      * exact Hb.
    + intros Hne. destruct (fires true true stream) eqn:E; [exact Hb |].
      destruct p; try (exfalso; apply Hne; reflexivity);
        specialize (Hnf eq_refl eq_refl); discriminate.
  - (* write *)
    injection Hprim as <-. open_call. eexists. split; [first_turn |].
    intros w2. cbn [answer_of].
    destruct (_write backend content _) as [[]|err|]; plain_reaction.
  - (* list *)
    injection Hprim as <-. cbn [answer_of].
    destruct (_list backend (FileInterface.str2bin config (list_path ftppath)))
      as [entries|err|] eqn:Hlist.
    + destruct (list_phases config backend ftppath entries w Hlist)
        as (r0 & Hc & Hr).
      unfold call, void, bind, ret. rewrite Hc. eexists. split.
      * unfold list_called, announced. reflexivity.
      * intros w2. cbn [void_promise]. rewrite Hr. unfold list_fulfilled.
        cbn [trace stateBar].
        rewrite logged_app, primitives_app, announces_app. simpl.
        rewrite !app_nil_r. repeat split; auto. discriminate.
    + open_call. fold (list_path ftppath). rewrite Hlist.
      eexists. split; [first_turn |]. intros w2. plain_reaction.
    + open_call. fold (list_path ftppath). rewrite Hlist.
      eexists. split; [first_turn |]. intros w2. plain_reaction.
  - (* rmdir *)
    injection Hprim as <-. open_call. eexists. split; [first_turn |].
    intros w2. cbn [answer_of].
    destruct (_rmdir backend _ true) as [[]|err|]; [plain_reaction | | plain_reaction].
    unfold then_, swallowed. cbn [ignorecode_of].
    destruct (FileInterface.ftpCode_is err _); plain_reaction.
  - (* delete *)
    injection Hprim as <-. open_call. eexists. split; [first_turn |].
    intros w2. cbn [answer_of].
    destruct (_delete backend _) as [[]|err|]; [plain_reaction | | plain_reaction].
    unfold then_, swallowed. cbn [ignorecode_of].
    destruct (FileInterface.ftpCode_is err _); plain_reaction.
  - (* mkdir *)
    injection Hprim as <-. open_call. eexists. split; [first_turn |].
    intros w2. cbn [answer_of].
    destruct (_mkdir backend _ true) as [[]|err|]; [plain_reaction | | plain_reaction].
    unfold then_, swallowed. cbn [ignorecode_of].
    destruct (FileInterface.ftpCode_is err _); plain_reaction.
  - (* readlink *)
    unfold symlink_at in Hprim.
    destruct (nth_error (heap w) fileinfo) as [f|] eqn:Hf; [| discriminate].
    destruct (JS.eqb (FileInfo.type f) (lit "l")) eqn:Ht; [| discriminate].
    injection Hprim as <-.
    unfold call, void, FileInterface.readlink, bind, deref, ret.
    rewrite Hf, Ht. cbn [negb]. open_call. eexists. split.
    + unfold announced.
      cbn [announcement stateBar trace timers heap].
      unfold FileInterface.name_of. rewrite Hf.
      rewrite <- ?app_assoc. reflexivity.
    + intros w2. cbn [answer_of].
      destruct (_readlink backend f _) as [t|err|]; [| plain_reaction | plain_reaction].
      unfold then_, modify. cbn [void_promise trace stateBar].
      rewrite logged_app, primitives_app, announces_app. simpl.
      rewrite !app_nil_r. repeat split; auto. discriminate.
  - (* rename *)
    injection Hprim as <-. open_call. eexists. split; [first_turn |].
    intros w2. cbn [answer_of].
    destruct (_rename backend _ _) as [[]|err|]; plain_reaction.
Qed.

(** [perform] is [call], run to the end and read without the value. *)
Lemma perform_call config backend normalize inv w :
  perform config backend normalize inv w
  = let (o, w') := run (call config backend normalize inv) w in (exit_of o, w').
Proof.
  destruct inv; unfold perform, finish, call, void, run, bind, ret;
    match goal with
    | |- context [let (_, _) := ?op w in _] =>
        destruct (op w) as [[err|r] w1]; [reflexivity |];
        destruct (r w1) as [[v|e|] w2]; reflexivity
    end.
Qed.

Lemma set_shows state s :
  StateBar.disposed s = false ->
  StateBar.statebar (StateBar.set state s) = Some state /\
  StateBar.disposed (StateBar.set state s) = false.
Proof. unfold StateBar.set. intros ->. split; reflexivity. Qed.

(** ** The indicator after an operation *)

(** X1: whenever the promise of an operation is fulfilled or rejected, the
    status bar shows nothing afterwards -- for every operation, every driver
    answer and every stream, a stream that emits both 'close' and 'error'
    included. *)
Theorem settled_operation_clears_indicator config backend normalize inv w :
  let (ex, w') := perform config backend normalize inv w in
  ex = Resolved \/ ex = Failed ->
  StateBar.statebar (stateBar w') = None.
Proof.
  rewrite perform_call. unfold run, bind, ret.
  destruct (primitive_of config inv w) as [prim|] eqn:Hprim.
  - destruct (call_phases config backend normalize inv w prim Hprim)
      as (r & Hc & Hr).
    rewrite Hc. specialize (Hr (announced config inv prim w)).
    destruct (answer_of backend prim) as [[]|err|].
    + destruct (r _) as [p w3]. destruct Hr as (_ & _ & _ & _ & Hb & _).
      intros Hex. rewrite Hb.
      * apply StateBar_close_clears.
      * intros ->. destruct Hex; discriminate.
    + rewrite Hr. destruct (swallowed inv err); intros _;
        apply StateBar_close_clears.
    + rewrite Hr. intros [H|H]; discriminate.
  - destruct (call_guard config backend normalize inv w Hprim) as (err & Hc).
    rewrite Hc. intros [H|H]; discriminate.
Qed.

Lemma settled_operation_clears_indicator_witness :
  StateBar.statebar
    (stateBar (snd (perform Sample.latin1
                      (Sample.driver (Fulfilled tt)
                         (Fulfilled [error Sample.denied; close])
                         (Fulfilled []) Pending)
                      Sample.normalized
                      (View (lit "/pub/hi.txt")) Sample.world))) = None.
Proof.
  pose proof (settled_operation_clears_indicator Sample.latin1
                (Sample.driver (Fulfilled tt)
                   (Fulfilled [error Sample.denied; close])
                   (Fulfilled []) Pending)
                Sample.normalized (View (lit "/pub/hi.txt")) Sample.world) as H.
  destruct (perform _ _ _ _ _) as [ex w'] eqn:E.
  apply H. right.
  change ex with (fst (ex, w')). rewrite <- E. vm_compute. reflexivity.
Defined.



(** A call that returns a promise reached its primitive. *)
Lemma returned_call config backend normalize inv w r w1 :
  call config backend normalize inv w = (Returned r, w1) ->
  exists prim,
    primitive_of config inv w = Some prim /\
    w1 = announced config inv prim w /\
    forall w2,
      let (p, w3) := r w2 in
      p <> Pending -> StateBar.statebar (stateBar w3) = None.
Proof.
  intros Hcall.
  destruct (primitive_of config inv w) as [prim|] eqn:Hprim.
  - exists prim. split; [reflexivity |].
    destruct (call_phases config backend normalize inv w prim Hprim)
      as (r' & Hc & Hr).
    rewrite Hc in Hcall. injection Hcall as -> <-.
    split; [reflexivity |]. intros w2. specialize (Hr w2).
    destruct (answer_of backend prim) as [[]|err|].
    + destruct (r w2) as [p w3]. destruct Hr as (_ & _ & _ & _ & Hb & _).
      intros Hne. rewrite (Hb Hne). apply StateBar_close_clears.
    + rewrite Hr. destruct (swallowed inv err); intros _;
        apply StateBar_close_clears.
    + rewrite Hr. intros H. now destruct H.
  - destruct (call_guard config backend normalize inv w Hprim) as (err & Hc).
    rewrite Hc in Hcall. discriminate.
Qed.

(** X3: the status bar is shared.  When a second operation is called while
    the first is still in flight, the bar shows the second announcement; as
    soon as the first one settles the bar is cleared, although the second
    has not settled. *)
Theorem first_settlement_clears_second_announcement
    config backend normalize first second w r1 w1 r2 w2 :
  StateBar.disposed (stateBar w) = false ->
  call config backend normalize first w = (Returned r1, w1) ->
  call config backend normalize second w1 = (Returned r2, w2) ->
  fst (r1 w2) <> Pending ->
  StateBar.statebar (stateBar w2)
    = Some (FileInterface.prefixed config (announcement second w1)) /\
  StateBar.statebar (stateBar (snd (r1 w2))) = None.
Proof.
  intros Hd H1 H2 Hne.
  destruct (returned_call config backend normalize first w r1 w1 H1)
    as (p1 & _ & Hw1 & Hclear).
  destruct (returned_call config backend normalize second w1 r2 w2 H2)
    as (p2 & _ & Hw2 & _).
  split.
  - rewrite Hw2. unfold announced. cbn [stateBar]. apply set_shows.
    rewrite Hw1. unfold announced. cbn [stateBar]. now apply set_shows.
  - specialize (Hclear w2). destruct (r1 w2) as [p w3]. now apply Hclear.
Qed.

Lemma first_settlement_clears_second_announcement_witness :
  match call Sample.latin1 Sample.healthy Sample.normalized
          (Mkdir (lit "/new")) Sample.world with
  | (Returned r1, w1) =>
      match call Sample.latin1 Sample.healthy Sample.normalized
              (Upload (lit "/new/a.txt") (lit "/tmp/a.txt")) w1 with
      | (Returned r2, w2) =>
          StateBar.statebar (stateBar w2) = Some (lit "dev> upload /new/a.txt") /\
          StateBar.statebar (stateBar (snd (r1 w2))) = None
      | _ => False
      end
  | _ => False
  end.
Proof.
  destruct (call Sample.latin1 Sample.healthy Sample.normalized
              (Mkdir (lit "/new")) Sample.world) as [[e1|r1] w1] eqn:E1;
    [vm_compute in E1; discriminate |].
  destruct (call Sample.latin1 Sample.healthy Sample.normalized
              (Upload (lit "/new/a.txt") (lit "/tmp/a.txt")) w1)
    as [[e2|r2] w2] eqn:E2;
    [unfold call, void, FileInterface.upload, bind, ret in E2; simpl in E2;
     discriminate |].
  pose proof E1 as F1. vm_compute in F1. injection F1 as Fr Fw.
  assert (Hne : fst (r1 w2) <> Pending) by (rewrite <- Fr; simpl; discriminate).
  destruct (first_settlement_clears_second_announcement Sample.latin1
              Sample.healthy Sample.normalized (Mkdir (lit "/new"))
              (Upload (lit "/new/a.txt") (lit "/tmp/a.txt"))
              Sample.world r1 w1 r2 w2 eq_refl E1 E2 Hne) as [Ha Hb].
  split; [| exact Hb]. rewrite Ha. reflexivity.
Defined.

(** ** Primitives and log lines of an operation *)

Lemma failure_line_same_heap inv err w w' :
  heap w' = heap w -> failure_line inv err w' = failure_line inv err w.
Proof.
  intros H. destruct inv; simpl; try reflexivity.
  unfold FileInterface.name_of. now rewrite H.
Qed.

(** The primitives on the trace once an invocation has run. *)
Lemma primitives_of_run config backend normalize inv w :
  primitives (trace (snd (run (call config backend normalize inv) w)))
  = primitives (trace w) ++
    match primitive_of config inv w with
    | Some prim => [prim]
    | None => []
    end.
Proof.
  unfold run, bind, ret.
  destruct (primitive_of config inv w) as [prim|] eqn:Hprim.
  - destruct (call_phases config backend normalize inv w prim Hprim)
      as (r & Hc & Hr).
    rewrite Hc. specialize (Hr (announced config inv prim w)).
    assert (Hcalled : primitives (trace (announced config inv prim w))
                      = primitives (trace w) ++ [prim])
      by (unfold announced; cbn [trace]; now rewrite primitives_app).
    destruct (answer_of backend prim) as [[]|err|].
    + destruct (r _) as [p w3]. destruct Hr as (_ & Hp & _).
      cbn [snd]. now rewrite Hp.
    + rewrite Hr. destruct (swallowed inv err); cbn [snd];
        unfold closed, failed; cbn [trace];
        rewrite primitives_app, Hcalled; simpl; now rewrite app_nil_r.
    + rewrite Hr. exact Hcalled.
  - destruct (call_guard config backend normalize inv w Hprim) as (err & Hc).
    rewrite Hc. cbn [snd]. now rewrite app_nil_r.
Qed.

Lemma snd_perform config backend normalize inv w :
  snd (perform config backend normalize inv w)
  = snd (run (call config backend normalize inv) w).
Proof.
  rewrite perform_call. now destruct (run _ w).
Qed.

(** X4: every operation calls exactly one abstract method of the driver --
    the one of its own kind, on the wire form of its path(s), recursively
    for mkdir and rmdir -- whatever the driver answers; readlink stopped by
    its guard calls none. *)
Theorem one_primitive_per_operation config backend normalize inv w :
  primitives (trace (snd (perform config backend normalize inv w)))
  = primitives (trace w) ++
    match primitive_of config inv w with
    | Some prim => [prim]
    | None => []
    end.
Proof.
  rewrite snd_perform. apply primitives_of_run.
Qed.

(** X5: when the driver's promise is rejected and the call site does not
    swallow the code, the operation rejects with that very error; the log
    holds the announcement and then one failure line naming the operation
    and its path; settle is called once; store and timers are untouched. *)
Theorem rejection_is_propagated config backend normalize inv w prim err :
  primitive_of config inv w = Some prim ->
  answer_of backend prim = Rejected err ->
  swallowed inv err = false ->
  let (o, w') := run (call config backend normalize inv) w in
  o = Async (Rejected err) /\
  logged (trace w') = logged (trace w) ++
    [FileInterface.prefixed config (announcement inv w);
     FileInterface.prefixed config (failure_line inv err w)] /\
  settles (trace w') = S (settles (trace w)) /\
  heap w' = heap w /\ timers w' = timers w.
Proof.
  intros Hprim Hans Hsw. unfold run, bind, ret.
  destruct (call_phases config backend normalize inv w prim Hprim)
    as (r & Hc & Hr).
  rewrite Hc. specialize (Hr (announced config inv prim w)).
  rewrite Hans, Hsw in Hr. rewrite Hr.
  unfold failed.
  rewrite (failure_line_same_heap inv err w (announced config inv prim w) eq_refl).
  unfold announced. cbn [trace heap timers].
  rewrite !logged_app, !settles_app. simpl. rewrite <- ?app_assoc, ?app_nil_r.
  repeat split; lia.
Qed.

Lemma rejection_is_propagated_witness :
  let (o, w') := run (call Sample.latin1 (Sample.failing Sample.denied)
                        Sample.normalized
                        (Rename (lit "/a") (lit "/b"))) Sample.world in
  o = Async (Rejected Sample.denied) /\
  logged (trace w') =
    [lit "dev> rename /a /b";
     lit "dev> rename fail: /a /b, Permission denied"].
Proof.
  pose proof (rejection_is_propagated Sample.latin1 (Sample.failing Sample.denied)
                Sample.normalized (Rename (lit "/a") (lit "/b")) Sample.world
                _ Sample.denied eq_refl eq_refl eq_refl) as H.
  destruct (run _ _) as [o w']. destruct H as (Ho & Hl & _).
  split; [exact Ho | rewrite Hl; reflexivity].
Defined.

(** X6: a failure line is logged only when the driver's promise is rejected:
    if it is fulfilled or stays pending, the announcement is the only line
    the operation logs -- also when the stream of download or view emits
    'error' and the operation rejects. *)
Theorem no_failure_line_without_rejection config backend normalize inv w prim :
  primitive_of config inv w = Some prim ->
  (forall err, answer_of backend prim <> Rejected err) ->
  logged (trace (snd (perform config backend normalize inv w)))
  = logged (trace w) ++ [FileInterface.prefixed config (announcement inv w)].
Proof.
  intros Hprim Hans. rewrite perform_call. unfold run, bind, ret.
  destruct (call_phases config backend normalize inv w prim Hprim)
    as (r & Hc & Hr).
  rewrite Hc. specialize (Hr (announced config inv prim w)).
  assert (Hline : logged (trace (announced config inv prim w))
                  = logged (trace w)
                    ++ [FileInterface.prefixed config (announcement inv w)])
    by (unfold announced; cbn [trace]; now rewrite logged_app).
  destruct (answer_of backend prim) as [[]|err|].
  - destruct (r _) as [p w3]. destruct Hr as (Hl & _). cbn [snd].
    now rewrite Hl.
  - now destruct (Hans err).
  - rewrite Hr. exact Hline.
Qed.

Lemma no_failure_line_without_rejection_witness :
  fst (perform Sample.latin1
         (Sample.driver (Fulfilled tt) (Fulfilled [error Sample.denied])
            (Fulfilled []) Pending)
         Sample.normalized (View (lit "/pub/hi.txt")) Sample.world) = Failed /\
  logged (trace (snd (perform Sample.latin1
                        (Sample.driver (Fulfilled tt)
                           (Fulfilled [error Sample.denied])
                           (Fulfilled []) Pending)
                        Sample.normalized (View (lit "/pub/hi.txt"))
                        Sample.world)))
  = [lit "dev> view /pub/hi.txt"].
Proof.
  split; [vm_compute; reflexivity |].
  rewrite (no_failure_line_without_rejection Sample.latin1
             (Sample.driver (Fulfilled tt) (Fulfilled [error Sample.denied])
                (Fulfilled []) Pending)
             Sample.normalized (View (lit "/pub/hi.txt")) Sample.world
             _ eq_refl).
  - reflexivity.
  - intros err. simpl. discriminate.
Defined.

(** ** The stream of [download] and [view] *)

(** 'data' events reach the 'data' listener in order and change nothing
    else. *)
Lemma listen_data_prefix {T} ondata (resolve : list (list byte) -> T) chunks :
  forall rest once_close once_error buffers settled,
    FileInterface.listen ondata resolve (map data chunks ++ rest)
      once_close once_error buffers settled
    = FileInterface.listen ondata resolve rest
        once_close once_error (fold_left ondata chunks buffers) settled.
Proof.
  induction chunks as [|c chunks IH]; intros; simpl; [reflexivity | apply IH].
Qed.

Lemma push_all (chunks : list (list byte)) :
  forall buffers,
    fold_left (fun b c => b ++ [c]) chunks buffers = buffers ++ chunks.
Proof.
  induction chunks as [|c chunks IH]; intros buffers; simpl.
  - now rewrite app_nil_r.
  - rewrite IH, <- app_assoc. reflexivity.
Qed.

(** X7: on a stream the driver hands over, download and view call settle
    once for each of the two one-shot listeners whose event the stream emits:
    not at all for a stream that emits neither 'close' nor 'error', once for
    one of them, twice for a stream that emits both. *)
Theorem stream_settles_once_per_listener
    config backend normalize localpath ftppath stream w :
  _get backend (FileInterface.str2bin config ftppath) = Fulfilled stream ->
  settles (trace (snd (perform config backend normalize
                         (Download localpath ftppath) w)))
    = settles (trace w) + b2n (has_close stream) + b2n (has_error stream) /\
  settles (trace (snd (perform config backend normalize (View ftppath) w)))
    = settles (trace w) + b2n (has_close stream) + b2n (has_error stream).
Proof.
  intros Hget. split; open_method; rewrite Hget;
    cbn [stateBar trace timers heap];
    match goal with
    | |- context [FileInterface.listen ?a ?b ?s ?c ?e ?bu ?st ?w0] =>
        pose proof (listen_counts a b s c e bu st w0) as H;
        destruct (FileInterface.listen a b s c e bu st w0) as [p w']
    end;
    destruct H as (_ & Hs & _); cbn [trace andb snd] in *;
    rewrite Hs, !settles_app; simpl; lia.
Qed.

Lemma stream_settles_once_per_listener_witness :
  settles (trace (snd (perform Sample.latin1
                         (Sample.driver (Fulfilled tt)
                            (Fulfilled [data [x68]; error Sample.denied; close])
                            (Fulfilled []) Pending)
                         Sample.normalized
                         (Download (lit "/tmp/hi.txt") (lit "/pub/hi.txt"))
                         Sample.world))) = 2.
Proof.
  exact (proj1 (stream_settles_once_per_listener Sample.latin1
                  (Sample.driver (Fulfilled tt)
                     (Fulfilled [data [x68]; error Sample.denied; close])
                     (Fulfilled []) Pending)
                  Sample.normalized (lit "/tmp/hi.txt") (lit "/pub/hi.txt")
                  [data [x68]; error Sample.denied; close] Sample.world eq_refl)).
Defined.

(** X8: when the stream emits 'close' before any 'error', view resolves with
    the chunks received up to then, concatenated in order of arrival, and
    download resolves; what the stream emits afterwards changes neither. *)
Theorem close_first_resolves_with_chunks_in_order
    config backend localpath ftppath chunks rest w :
  _get backend (FileInterface.str2bin config ftppath)
    = Fulfilled (map data chunks ++ close :: rest) ->
  fst (run (FileInterface.view config backend ftppath) w)
    = Async (Fulfilled (List.concat chunks)) /\
  fst (run (FileInterface.download config backend localpath ftppath) w)
    = Async (Fulfilled tt).
Proof.
  intros Hget.
  split; unfold run, FileInterface.view, FileInterface.download,
    FileInterface.logWithState, promiseErrorWrap, invoke, logger_message,
    stateBar_set, emit, bind, ret; rewrite Hget; unfold then_;
    cbn [stateBar trace timers heap]; rewrite listen_data_prefix;
    cbn [FileInterface.listen FileInterface.settle_once];
    unfold bind, stateBar_close;
    match goal with
    | |- context [FileInterface.listen ?a ?b ?s ?c ?e ?bu ?st ?w0] =>
        pose proof (listen_quiet a b s c e bu st w0) as H;
        destruct (FileInterface.listen a b s c e bu st w0) as [p w']
    end;
    destruct H as (_ & _ & _ & _ & _ & _ & Hs & _);
    cbn [fst]; rewrite Hs by discriminate.
  - now rewrite push_all.
  - reflexivity.
Qed.

Lemma close_first_resolves_with_chunks_in_order_witness :
  fst (run (FileInterface.view Sample.latin1 Sample.healthy (lit "/pub/hi.txt"))
         Sample.world) = Async (Fulfilled [x68; x69]).
Proof.
  exact (proj1 (close_first_resolves_with_chunks_in_order Sample.latin1
                  Sample.healthy (lit "/tmp/hi.txt") (lit "/pub/hi.txt")
                  [[x68; x69]] [] Sample.world eq_refl)).
Defined.

(** X9: when the stream emits 'error' before any 'close', download and view
    reject with the error of that event; a 'close' that follows does not
    turn the rejection into a success. *)
Theorem error_first_rejects
    config backend localpath ftppath chunks err rest w :
  _get backend (FileInterface.str2bin config ftppath)
    = Fulfilled (map data chunks ++ error err :: rest) ->
  fst (run (FileInterface.view config backend ftppath) w)
    = Async (Rejected err) /\
  fst (run (FileInterface.download config backend localpath ftppath) w)
    = Async (Rejected err).
Proof.
  intros Hget.
  split; unfold run, FileInterface.view, FileInterface.download,
    FileInterface.logWithState, promiseErrorWrap, invoke, logger_message,
    stateBar_set, emit, bind, ret; rewrite Hget; unfold then_;
    cbn [stateBar trace timers heap]; rewrite listen_data_prefix;
    cbn [FileInterface.listen FileInterface.settle_once];
    unfold bind, stateBar_close;
    match goal with
    | |- context [FileInterface.listen ?a ?b ?s ?c ?e ?bu ?st ?w0] =>
        pose proof (listen_quiet a b s c e bu st w0) as H;
        destruct (FileInterface.listen a b s c e bu st w0) as [p w']
    end;
    destruct H as (_ & _ & _ & _ & _ & _ & Hs & _);
    cbn [fst]; rewrite Hs by discriminate; reflexivity.
Qed.

Lemma error_first_rejects_witness :
  fst (run (FileInterface.download Sample.latin1
              (Sample.driver (Fulfilled tt)
                 (Fulfilled [data [x68]; error Sample.denied; close])
                 (Fulfilled []) Pending)
              (lit "/tmp/hi.txt") (lit "/pub/hi.txt")) Sample.world)
  = Async (Rejected Sample.denied).
Proof.
  exact (proj2 (error_first_rejects Sample.latin1
                  (Sample.driver (Fulfilled tt)
                     (Fulfilled [data [x68]; error Sample.denied; close])
                     (Fulfilled []) Pending)
                  (lit "/tmp/hi.txt") (lit "/pub/hi.txt")
                  [[x68]] Sample.denied [close] Sample.world eq_refl)).
Defined.

(** ** The entries of a listing and the store *)

Lemma nth_error_update_other {A} (l : list A) i a x :
  a <> i -> nth_error (update l i x) a = nth_error l a.
Proof.
  revert i a; induction l as [|y l IH]; intros [|i] [|a] H; simpl;
    try reflexivity; try congruence.
  apply IH. congruence.
Qed.

(** X10: [list] changes nothing of the driver's entries but their names: it
    resolves with one entry per driver entry, in the driver's order, and the
    i-th one reads back with the name of the i-th driver entry passed through
    [bin2str], and with the type and link the driver delivered. *)
Theorem list_transcodes_names_only config backend ftppath entries w :
  _list backend (FileInterface.str2bin config (list_path ftppath))
    = Fulfilled entries ->
  let (o, w') := run (FileInterface.list config backend ftppath) w in
  exists files,
    o = Async (Fulfilled files) /\
    List.length files = List.length entries /\
    forall i e,
      nth_error entries i = Some e ->
      exists a listed,
        nth_error files i = Some a /\
        nth_error (heap w') a = Some listed /\
        FileInfo.name listed = FileInterface.bin2str config (FileInfo.name e) /\
        FileInfo.type listed = FileInfo.type e /\
        FileInfo.link listed = FileInfo.link e.
Proof.
  intros Ha. rewrite (list_run_fulfilled config backend ftppath entries w Ha).
  unfold list_fulfilled, list_called. cbn [heap].
  eexists. split; [reflexivity |]. split; [apply length_seq |].
  intros i e Hi.
  assert (Hlt : i < List.length entries)
    by (apply nth_error_Some; congruence).
  exists (List.length (heap w) + i).
  exists (FileInfo.with_name e (FileInterface.bin2str config (FileInfo.name e))).
  split; [| split].
  - rewrite nth_error_seq.
    destruct (Nat.ltb_spec i (List.length entries)); [reflexivity | lia].
  - rewrite nth_error_app2 by lia.
    replace (List.length (heap w) + i - List.length (heap w)) with i by lia.
    unfold transcoded. now rewrite nth_error_map, Hi.
  - repeat split.
Qed.

Lemma list_transcodes_names_only_witness :
  let (o, w') := run (FileInterface.list Sample.usascii Sample.accented (lit "/pub"))
                   Sample.world in
  exists a listed,
    nth_error (heap w') a = Some listed /\
    FileInfo.name listed = lit "caf" ++ [REPLACEMENT] /\
    FileInfo.type listed = lit "-" /\
    FileInfo.link listed = None.
Proof.
  pose proof (list_transcodes_names_only Sample.usascii Sample.accented
                (lit "/pub") _ Sample.world eq_refl) as H.
  destruct (run _ _) as [o w'].
  destruct H as (files & _ & _ & H).
  destruct (H 1 _ eq_refl) as (a & listed & _ & Hh & Hn & Ht & Hl).
  exists a, listed. split; [exact Hh |]. split; [| split].
  - rewrite Hn. vm_compute. reflexivity.
  - rewrite Ht. reflexivity.
  - rewrite Hl. reflexivity.
Defined.

(** X11: for a symlink whose driver answers, [readlink] changes nothing in
    the store but the [link] field of the entry it was given: every other
    object, and the entry's own [name] and [type], are as before; no timer
    task is queued. *)
Theorem readlink_touches_only_the_link
    config backend normalize fileinfo ftppath w f t :
  nth_error (heap w) fileinfo = Some f ->
  FileInfo.type f = lit "l" ->
  _readlink backend f (FileInterface.str2bin config ftppath) = Fulfilled t ->
  let w' := snd (run (FileInterface.readlink config backend normalize
                        fileinfo ftppath) w) in
  (forall a, a <> fileinfo -> nth_error (heap w') a = nth_error (heap w) a) /\
  (exists f', nth_error (heap w') fileinfo = Some f' /\
     FileInfo.name f' = FileInfo.name f /\ FileInfo.type f' = FileInfo.type f) /\
  List.length (heap w') = List.length (heap w) /\
  timers w' = timers w.
Proof.
  intros Hf Ht Ha.
  rewrite (readlink_run_fulfilled config backend normalize fileinfo ftppath w f t
             Hf Ht Ha).
  cbv zeta. cbn [snd heap timers]. repeat split.
  - intros a Hne. now apply nth_error_update_other.
  - eexists. split; [exact (nth_error_update_same _ _ _ f Hf) |].
    split; reflexivity.
  - clear. generalize (heap w) fileinfo.
    induction l as [|y l IH]; intros [|i]; simpl; auto.
Qed.

Lemma readlink_touches_only_the_link_witness :
  nth_error (heap (snd (run (FileInterface.readlink Sample.latin1 Sample.healthy
                               Sample.normalized 1 (lit "/a/b/link"))
                          Sample.world))) 0
  = Some (Sample.directory "b").
Proof.
  pose proof (readlink_touches_only_the_link Sample.latin1 Sample.healthy
                Sample.normalized 1 (lit "/a/b/link") Sample.world
                (Sample.symlink "link") (lit "c") eq_refl eq_refl eq_refl) as H.
  cbv zeta in H. destruct H as (H & _). rewrite (H 0); [reflexivity | lia].
Defined.



(** X20: on a status bar that has been disposed no operation shows
    anything: whatever the operation and the driver's answer, the bar is
    left exactly as it was. *)
Theorem disposed_bar_ignores_operations config backend normalize inv w :
  StateBar.disposed (stateBar w) = true ->
  StateBar.statebar (stateBar w) = None ->
  stateBar (snd (perform config backend normalize inv w)) = stateBar w.
Proof.
  intros Hd Hn. rewrite snd_perform. unfold run, bind, ret.
  assert (Hset : forall line, StateBar.set line (stateBar w) = stateBar w)
    by (intros line; unfold StateBar.set; now rewrite Hd).
  assert (Hclose : StateBar.close (stateBar w) = stateBar w)
    by (unfold StateBar.close; now rewrite Hn).
  destruct (primitive_of config inv w) as [prim|] eqn:Hprim.
  - destruct (call_phases config backend normalize inv w prim Hprim)
      as (r & Hc & Hr).
    rewrite Hc. specialize (Hr (announced config inv prim w)).
    assert (Hbar : stateBar (announced config inv prim w) = stateBar w)
      by (unfold announced; cbn [stateBar]; apply Hset).
    destruct (answer_of backend prim) as [[]|err|].
    + destruct (r _) as [p w3]. destruct Hr as (_ & _ & _ & Hp & Hs & _).
      cbn [snd]. destruct p as [[]|e|].
      * rewrite Hs by discriminate. now rewrite Hbar.
      * rewrite Hs by discriminate. now rewrite Hbar.
      * now rewrite Hp.
    + rewrite Hr. destruct (swallowed inv err); cbn [snd];
        unfold closed, failed; cbn [stateBar]; now rewrite Hbar.
    + rewrite Hr. exact Hbar.
  - destruct (call_guard config backend normalize inv w Hprim) as (err & Hc).
    rewrite Hc. reflexivity.
Qed.

Lemma disposed_bar_ignores_operations_witness :
  StateBar.statebar
    (stateBar (snd (perform Sample.latin1 Sample.healthy Sample.normalized
                      (Upload (lit "/a.txt") (lit "/tmp/a.txt"))
                      {| stateBar := StateBar.dispose StateBar.init;
                         trace := []; timers := []; heap := [] |}))) = None.
Proof.
  rewrite (disposed_bar_ignores_operations Sample.latin1 Sample.healthy
             Sample.normalized (Upload (lit "/a.txt") (lit "/tmp/a.txt"))
             {| stateBar := StateBar.dispose StateBar.init;
                trace := []; timers := []; heap := [] |} eq_refl eq_refl).
  reflexivity.
Defined.

(** ** The wire form of a path *)

(** X12: whatever the configured charset, the wire form [str2bin] produces
    holds only code units below 256, one per encoded byte; and [bin2str]
    reads nothing but the low byte of each code unit it is given. *)
Theorem wire_strings_are_byte_strings config s :
  Forall (fun c => (c < 256)%N) (FileInterface.str2bin config s) /\
  List.length (FileInterface.str2bin config s)
    = List.length (encode (ServerConfig.fileNameEncoding config) s) /\
  FileInterface.bin2str config s
    = FileInterface.bin2str config (map (fun c => (c mod 256)%N) s).
Proof.
  unfold FileInterface.str2bin, FileInterface.bin2str. simpl.
  split; [| split].
  - apply Forall_forall. intros c Hc. apply in_map_iff in Hc.
    destruct Hc as (b & <- & _). pose proof (Byte.to_N_bounded b). lia.
  - apply length_map.
  - f_equal. rewrite map_map. apply map_ext. intros c.
    unfold Iconv.low8. now rewrite N.Div0.mod_mod.
Qed.

(** ** The status bar *)

Lemma disposed_or_blank_step s c :
  (StateBar.disposed s = true -> StateBar.statebar s = None) ->
  (StateBar.disposed (StateBarCall.apply s c) = true ->
   StateBar.statebar (StateBarCall.apply s c) = None) /\
  (StateBar.disposed s = true \/ StateBarCall.is_dispose c = true ->
   StateBar.disposed (StateBarCall.apply s c) = true).
Proof.
  destruct s as [[text|] [|]], c as [state| |];
    unfold StateBarCall.apply, StateBar.set, StateBar.close, StateBar.dispose;
    simpl; intros H; split; auto; try discriminate;
    intros [E|E]; auto; discriminate.
Qed.

Lemma disposed_bar_run calls :
  forall s,
    (StateBar.disposed s = true -> StateBar.statebar s = None) ->
    StateBar.disposed s = true \/ existsb StateBarCall.is_dispose calls = true ->
    StateBar.statebar (StateBarCall.run calls s) = None /\
    StateBar.disposed (StateBarCall.run calls s) = true.
Proof.
  unfold StateBarCall.run.
  induction calls as [|c calls IH]; intros s Hwf Hd; simpl.
  - destruct Hd as [Hd|Hd]; [auto | discriminate].
  - destruct (disposed_or_blank_step s c Hwf) as [Hwf' Hd'].
    apply IH; [exact Hwf' |].
    simpl in Hd. rewrite orb_true_iff in Hd.
    destruct Hd as [Hd | [Hd|Hd]]; auto.
Qed.

(** X13: once [dispose] has been called on a status bar, it shows nothing
    and stays disposed whatever is called on it afterwards: a later [set] is
    ignored. *)
Theorem disposed_bar_stays_blank calls :
  existsb StateBarCall.is_dispose calls = true ->
  StateBar.statebar (StateBarCall.run calls StateBar.init) = None /\
  StateBar.disposed (StateBarCall.run calls StateBar.init) = true.
Proof.
  intros H. apply disposed_bar_run; [discriminate | now right].
Qed.

Lemma disposed_bar_stays_blank_witness :
  StateBar.statebar
    (StateBarCall.run
       [StateBarCall.Set_ (lit "upload /a"); StateBarCall.Dispose;
        StateBarCall.Set_ (lit "list .")] StateBar.init) = None.
Proof.
  exact (proj1 (disposed_bar_stays_blank
                  [StateBarCall.Set_ (lit "upload /a"); StateBarCall.Dispose;
                   StateBarCall.Set_ (lit "list .")] eq_refl)).
Defined.

Lemma undisposed_bar_run calls :
  forall s,
    StateBar.disposed s = false ->
    existsb StateBarCall.is_dispose calls = false ->
    StateBar.disposed (StateBarCall.run calls s) = false.
Proof.
  unfold StateBarCall.run.
  induction calls as [|c calls IH]; intros s Hs Hc; simpl; [exact Hs |].
  simpl in Hc. apply orb_false_iff in Hc. destruct Hc as [Hc Hcs].
  apply IH; [| exact Hcs].
  destruct s as [[text|] d], c; simpl in *; subst; try discriminate;
    reflexivity.
Qed.

(** X14: on a status bar that was never disposed, whatever was set or closed
    before, the bar shows exactly the text of the last [set], and nothing
    after a [close]. *)
Theorem bar_shows_last_set calls state :
  existsb StateBarCall.is_dispose calls = false ->
  StateBar.statebar
    (StateBarCall.run (calls ++ [StateBarCall.Set_ state]) StateBar.init)
    = Some state /\
  StateBar.statebar
    (StateBarCall.run (calls ++ [StateBarCall.Set_ state; StateBarCall.Close])
       StateBar.init) = None.
Proof.
  intros H. unfold StateBarCall.run. rewrite !fold_left_app. simpl.
  pose proof (undisposed_bar_run calls StateBar.init eq_refl H) as Hd.
  unfold StateBarCall.run in Hd. split.
  - now apply set_shows.
  - apply StateBar_close_clears.
Qed.

Lemma bar_shows_last_set_witness :
  StateBar.statebar
    (StateBarCall.run
       ([StateBarCall.Set_ (lit "upload /a"); StateBarCall.Close]
          ++ [StateBarCall.Set_ (lit "list .")]) StateBar.init)
  = Some (lit "list .").
Proof.
  exact (proj1 (bar_shows_last_set
                  [StateBarCall.Set_ (lit "upload /a"); StateBarCall.Close]
                  (lit "list .") eq_refl)).
Defined.

(* ================================================================= *)
(** * Properties of the workspace pickers (vsutil.ts) *)

Section Pickers.

Variable Workspace : Type.
Variable WorkspaceFolder : Type.
Variable folder_name : WorkspaceFolder -> jsstring.
Variable workspace_name : Workspace -> jsstring.
Variable getInstance : WorkspaceFolder -> option Workspace.
Variable createInstance : WorkspaceFolder -> Workspace.

(** The items a loop of [pick.item] calls leaves in the pick. *)
Lemma items_pushed {A} (lbl : A -> jsstring)
    (act : A -> Vsutil.Action Workspace WorkspaceFolder) l :
  forall pick,
    Vsutil.items
      (fold_left (fun pick x => snd (Vsutil.item pick (lbl x) (act x))) l pick)
    = Vsutil.items pick
      ++ map (fun x => {| Vsutil.label := lbl x; Vsutil.description := [];
                          Vsutil.detail := None; Vsutil.onselect := act x |}) l.
Proof.
  induction l as [|x l IH]; intros pick; simpl.
  - now rewrite app_nil_r.
  - rewrite IH. simpl. now rewrite <- app_assoc.
Qed.

(** With a folder array that does not hold exactly one folder,
    [createWorkspace] is the opening of this pick. *)
Lemma createWorkspace_opens folders choice h :
  List.length folders <> 1 ->
  Vsutil.createWorkspace folder_name getInstance createInstance
    (Some folders) choice h
  = Vsutil.open
      {| Vsutil.items :=
           map (fun x => {| Vsutil.label :=
                              Vsutil.folder_label folder_name getInstance x;
                            Vsutil.description := []; Vsutil.detail := None;
                            Vsutil.onselect :=
                              Vsutil.create_and_resolve createInstance x |})
             folders;
         Vsutil.oncancel := Vsutil.resolve None |}
      (lit "Select Workspace") choice h.
Proof.
  intros Hlen. unfold Vsutil.createWorkspace.
  destruct folders as [|f [|g rest]];
    [| exfalso; now apply Hlen |]; rewrite items_pushed; reflexivity.
Qed.

Lemma selectWorkspace_opens (all : list Workspace) choice h :
  2 <= List.length all ->
  Vsutil.selectWorkspace WorkspaceFolder workspace_name all choice h
  = Vsutil.open
      {| Vsutil.items :=
           map (fun x => {| Vsutil.label := workspace_name x;
                            Vsutil.description := []; Vsutil.detail := None;
                            Vsutil.onselect := Vsutil.resolve (Some x) |})
             all;
         Vsutil.oncancel := Vsutil.resolve None |}
      (lit "Select Workspace") choice h.
Proof.
  intros Hlen. unfold Vsutil.selectWorkspace. rewrite items_pushed.
  destruct all as [|f [|g rest]]; simpl in Hlen; try lia. reflexivity.
Qed.

(** X15: with a folder array that does not hold exactly one folder -- the
    empty array included -- [createWorkspace] opens one quick pick, "Select
    Workspace", with one item per folder in order, labelled with the folder
    name, followed by " [inited]" when the folder has a workspace already.
    Picking the i-th item creates a workspace for the i-th folder only and
    resolves with it; dismissing the pick resolves with undefined and
    creates nothing. *)
Theorem createWorkspace_pick folders choice :
  List.length folders <> 1 ->
  let h := Vsutil.createWorkspace folder_name getInstance createInstance
             (Some folders) choice Vsutil.start in
  Vsutil.shown h
    = [(map (Vsutil.folder_label folder_name getInstance) folders,
        lit "Select Workspace")] /\
  match choice with
  | Some i =>
      match nth_error folders i with
      | Some picked =>
          Vsutil.settlement h = Fulfilled (Some (createInstance picked)) /\
          Vsutil.created h = [picked]
      | None => Vsutil.settlement h = Fulfilled None /\ Vsutil.created h = []
      end
  | None => Vsutil.settlement h = Fulfilled None /\ Vsutil.created h = []
  end.
Proof.
  intros Hlen. cbv zeta. rewrite (createWorkspace_opens _ _ _ Hlen).
  unfold Vsutil.open. cbn [Vsutil.items].
  rewrite map_map. cbn [Vsutil.label].
  destruct choice as [i|];
    [rewrite nth_error_map; destruct (nth_error folders i) as [picked|] |];
    simpl; auto.
Qed.

(** X16: whatever the folders and whatever the user does, the promise of
    [createWorkspace] settles; it is rejected exactly when there is no
    folder array; a workspace is created for one folder at most, a folder of
    the array, and when the promise resolves with a workspace it is the one
    created; a single folder is taken without opening a pick. *)
Theorem createWorkspace_outcome workspaceFolders choice :
  let h := Vsutil.createWorkspace folder_name getInstance createInstance
             workspaceFolders choice Vsutil.start in
  Vsutil.settlement h <> Pending /\
  ((exists err, Vsutil.settlement h = Rejected err) <-> workspaceFolders = None) /\
  (Vsutil.created h = [] /\
   (Vsutil.settlement h = Fulfilled None \/
    Vsutil.settlement h = Rejected Vsutil.need_workspace)
   \/
   exists folders picked,
     workspaceFolders = Some folders /\ In picked folders /\
     Vsutil.created h = [picked] /\
     Vsutil.settlement h = Fulfilled (Some (createInstance picked))) /\
  (forall only, workspaceFolders = Some [only] -> Vsutil.shown h = []).
Proof.
  cbv zeta. destruct workspaceFolders as [folders|].
  - destruct (Nat.eq_dec (List.length folders) 1) as [Hone|Hlen].
    + destruct folders as [|only [|g rest]]; try discriminate. simpl.
      split; [discriminate |]. split.
      * split; [intros (err & H); discriminate | discriminate].
      * split; [| reflexivity]. right. exists [only], only. simpl. auto.
    + rewrite (createWorkspace_opens _ _ _ Hlen).
      unfold Vsutil.open. cbn [Vsutil.items].
      destruct choice as [i|];
        [rewrite nth_error_map;
         destruct (nth_error folders i) as [picked|] eqn:Hi |];
        cbn; (split; [discriminate |]);
        (split; [split; [intros (err & H); discriminate | discriminate] |]);
        (split; [| intros only H; injection H as ->; now destruct Hlen]).
      * right. exists folders, picked.
        split; [reflexivity |].
        split; [exact (nth_error_In _ _ Hi) | auto].
      * left. auto.
      * left. auto.
  - simpl. split; [discriminate |]. split.
    + split; [reflexivity | eauto].
    + split; [left; auto | discriminate].
Qed.

(** X17: with two workspaces or more, [selectWorkspace] opens one quick
    pick, "Select Workspace", with one item per workspace in order, labelled
    with its name; picking the i-th item resolves with the i-th workspace,
    dismissing the pick resolves with undefined. *)
Theorem selectWorkspace_pick (all : list Workspace) choice :
  2 <= List.length all ->
  let h := Vsutil.selectWorkspace WorkspaceFolder workspace_name all choice
             Vsutil.start in
  Vsutil.shown h = [(map workspace_name all, lit "Select Workspace")] /\
  Vsutil.settlement h
    = Fulfilled match choice with
                | Some i => nth_error all i
                | None => None
                end.
Proof.
  intros Hlen. cbv zeta. rewrite (selectWorkspace_opens _ _ _ Hlen).
  unfold Vsutil.open. cbn [Vsutil.items].
  rewrite map_map. cbn [Vsutil.label].
  destruct choice as [i|];
    [rewrite nth_error_map; destruct (nth_error all i) as [picked|] |];
    simpl; auto.
Qed.

(** X18: whatever the workspaces and whatever the user does, the promise of
    [selectWorkspace] settles; it is rejected, with "Need workspace", exactly
    when there is no workspace; a workspace it resolves with is one of the
    given ones; and a single workspace is resolved with at once, no pick
    being opened. *)
Theorem selectWorkspace_outcome (all : list Workspace) choice :
  let h := Vsutil.selectWorkspace WorkspaceFolder workspace_name all choice
             Vsutil.start in
  Vsutil.settlement h <> Pending /\
  (Vsutil.settlement h = Rejected Vsutil.need_workspace <-> all = []) /\
  (forall err, Vsutil.settlement h = Rejected err -> all = []) /\
  (forall ws, Vsutil.settlement h = Fulfilled (Some ws) -> In ws all) /\
  (forall only, all = [only] ->
     Vsutil.settlement h = Fulfilled (Some only) /\ Vsutil.shown h = []).
Proof.
  cbv zeta. destruct all as [|f [|g rest]].
  - simpl. repeat split; try discriminate; auto.
  - simpl. repeat split; try discriminate.
    + intros ws H. injection H as <-. now left.
    + injection H as <-. reflexivity.
  - set (all := f :: g :: rest).
    assert (Hlen : 2 <= List.length all) by (simpl; lia).
    rewrite (selectWorkspace_opens _ _ _ Hlen).
    unfold Vsutil.open. cbn [Vsutil.items].
    destruct choice as [i|];
      [rewrite nth_error_map;
       destruct (nth_error all i) as [picked|] eqn:Hi |];
      cbn; repeat split; try discriminate.
    intros ws H. injection H as <-. exact (nth_error_In _ _ Hi).
Qed.

End Pickers.

Lemma createWorkspace_pick_witness :
  let h := Vsutil.createWorkspace Demo.name_of_folder Demo.instance_of
             Demo.make_instance (Some Demo.folders) (Some 1) Vsutil.start in
  Vsutil.shown h = [([lit "site [inited]"; lit "blog"], lit "Select Workspace")] /\
  Vsutil.settlement h = Fulfilled (Some (lit "blog")) /\
  Vsutil.created h = [lit "blog"].
Proof.
  assert (Hlen : List.length Demo.folders <> 1) by (simpl; lia).
  pose proof (createWorkspace_pick Demo.Space Demo.Folder Demo.name_of_folder
                Demo.instance_of Demo.make_instance Demo.folders (Some 1) Hlen)
    as H.
  cbv zeta in *. destruct H as (Hs & Hp & Hc).
  split; [rewrite Hs; reflexivity | split; [exact Hp | exact Hc]].
Defined.

Lemma createWorkspace_outcome_witness :
  Vsutil.settlement
    (Vsutil.createWorkspace Demo.name_of_folder Demo.instance_of
       Demo.make_instance (Some []) None Vsutil.start) = Fulfilled None.
Proof.
  pose proof (createWorkspace_outcome Demo.Space Demo.Folder Demo.name_of_folder
                Demo.instance_of Demo.make_instance (Some []) None) as H.
  cbv zeta in H. destruct H as (_ & Hrej & Hcases & _).
  destruct Hcases as [(_ & [Hs | Hs]) | (fs & picked & Hfs & Hin & _)].
  - exact Hs.
  - assert (Hnone : Some (@nil Demo.Folder) = None)
      by (apply Hrej; eexists; exact Hs).
    discriminate Hnone.
  - injection Hfs as <-. destruct Hin.
Defined.

Lemma selectWorkspace_pick_witness :
  let h := Vsutil.selectWorkspace Demo.Folder Demo.name_of_space
             [lit "site"; lit "blog"] None Vsutil.start in
  Vsutil.shown h = [([lit "site"; lit "blog"], lit "Select Workspace")] /\
  Vsutil.settlement h = Fulfilled None.
Proof.
  assert (Hlen : 2 <= List.length [lit "site"; lit "blog"]) by (simpl; lia).
  exact (selectWorkspace_pick Demo.Space Demo.Folder Demo.name_of_space
           [lit "site"; lit "blog"] None Hlen).
Defined.

Lemma selectWorkspace_outcome_witness :
  let h := Vsutil.selectWorkspace Demo.Folder Demo.name_of_space
             [lit "site"] (Some 5) Vsutil.start in
  Vsutil.settlement h = Fulfilled (Some (lit "site")) /\ Vsutil.shown h = [].
Proof.
  pose proof (selectWorkspace_outcome Demo.Space Demo.Folder Demo.name_of_space
                [lit "site"] (Some 5)) as H.
  cbv zeta in *. destruct H as (_ & _ & _ & _ & H).
  exact (H (lit "site") eq_refl).
Defined.
